(** * mcp-reddit: the URL resolver, the comment-tree formatter and the three
    tool entry points of [src/mcp_reddit/reddit_fetcher.py], embedded in Rocq.

    Python [str] values are [string]s, Python [int]s are [Z], [Optional]
    values are [option]s.  The [datetime] library and the Reddit client are
    external: the first is an interface, with an instance for each local
    zone given by its offsets; the calls of the second are the events of a
    small program monad. *)

From Stdlib Require Import ZArith List String Ascii Bool Lia.
From Stdlib Require Import Permutation Sorted.
From Stdlib Require Import Numbers.DecimalString.
Import ListNotations.

Open Scope string_scope.
Open Scope Z_scope.

(** ** Python strings *)

Definition LF : ascii := "010"%char.
Definition slash : ascii := "/"%char.
Definition NL : string := String LF "".

(** [s * n] on a string: [n] copies of [s], none when [n] is negative. *)
Fixpoint str_repeat (s : string) (n : nat) : string :=
  match n with
  | O => ""
  | S n' => s ++ str_repeat s n'
  end.

Definition str_mul (s : string) (n : Z) : string := str_repeat s (Z.to_nat n).

(** [str(i)] and [f"{i}"] for an [int]. *)
Definition str_int (i : Z) : string := NilZero.string_of_int (Z.to_int i).

(** [x or default] where [x] is an optional string: [None] and [""] are falsy. *)
Definition py_or (x : option string) (default : string) : string :=
  match x with
  | None => default
  | Some "" => default
  | Some s => s
  end.

(** [f"{x}"] for an optional string. *)
Definition str_optional (x : option string) : string :=
  match x with
  | None => "None"
  | Some s => s
  end.

(** [sep.join(parts)]. *)
Fixpoint str_join (sep : string) (parts : list string) : string :=
  match parts with
  | [] => ""
  | [p] => p
  | p :: rest => p ++ sep ++ str_join sep rest
  end.

(** The text lines of a string, split at line feeds; a final line needs no
    terminator, and a string that ends in a line feed has no empty last line. *)
Fixpoint lines (s : string) : list string :=
  match s with
  | "" => []
  | String c s' =>
      if Ascii.eqb c LF then "" :: lines s'
      else match lines s' with
           | [] => [String c ""]
           | l :: ls => String c l :: ls
           end
  end.

Fixpoint no_newline (s : string) : bool :=
  match s with
  | "" => true
  | String c s' => negb (Ascii.eqb c LF) && no_newline s'
  end.

Fixpoint ends_with_newline (s : string) : bool :=
  match s with
  | "" => false
  | String c "" => Ascii.eqb c LF
  | String _ s' => ends_with_newline s'
  end.

Definition str_concat (parts : list string) : string :=
  fold_right append "" parts.

Fixpoint last_char (s : string) : option ascii :=
  match s with
  | "" => None
  | String c "" => Some c
  | String _ s' => last_char s'
  end.

(** The lines of a block after a prefix without line feeds is put before it. *)
Definition quote_first (p : string) (ls : list string) : list string :=
  match ls with
  | [] => [p]
  | l :: rest => (p ++ l) :: rest
  end.

(** ** [sorted(xs, key=key, reverse=True)]

    Python's sort is stable, also with [reverse=True]: elements with equal
    keys keep their order.  A stable sort has one result, computed here by
    insertion. *)
Section Sorted.
Context {A : Type} (key : A -> Z).

Fixpoint insert_reverse (x : A) (l : list A) : list A :=
  match l with
  | [] => [x]
  | y :: l' =>
      if key y <=? key x then x :: y :: l' else y :: insert_reverse x l'
  end.

Fixpoint sorted_reverse (l : list A) : list A :=
  match l with
  | [] => []
  | x :: l' => insert_reverse x (sorted_reverse l')
  end.

Definition descending (a b : A) : Prop := key b <= key a.

Definition has_key (k : Z) (a : A) : bool := key a =? k.
End Sorted.

(** ** The [datetime] library *)

Class Datetime := {
  datetime : Type;
  (** [datetime.fromtimestamp(t)]: the local civil time of the instant [t]. *)
  fromtimestamp : Z -> datetime;
  (** [dt.strftime(fmt)]. *)
  strftime : datetime -> string -> string
}.

(** The library for a process whose local zone has the offset [utcoffset t]
    (seconds east of UTC) at the instant [t]. CPython raises for instants
    outside the years 1 to 9999, and how [%Y] renders a year before 1000
    depends on the C library; Reddit's timestamps are far inside both. *)
Module Civil.
Record t := {
  year : Z; month : Z; day : Z; hour : Z; minute : Z; second : Z
}.

Definition from_days (days : Z) : Z * Z * Z :=
  let z := days + 719468 in
  let era := z / 146097 in
  let doe := z - era * 146097 in
  let yoe := (doe - doe / 1460 + doe / 36524 - doe / 146096) / 365 in
  let doy := doe - (365 * yoe + yoe / 4 - yoe / 100) in
  let mp := (5 * doy + 2) / 153 in
  let d := doy - (153 * mp + 2) / 5 + 1 in
  let m := if mp <? 10 then mp + 3 else mp - 9 in
  let y := yoe + era * 400 in
  (if m <=? 2 then y + 1 else y, m, d).

Definition of_seconds (local : Z) : t :=
  let '(y, m, d) := from_days (local / 86400) in
  let s := local mod 86400 in
  {| year := y; month := m; day := d;
     hour := s / 3600; minute := (s mod 3600) / 60; second := s mod 60 |}.

Definition pad (width : nat) (n : Z) : string :=
  let digits := str_int n in
  str_repeat "0" (width - String.length digits) ++ digits.

Definition directive (dt : t) (c : ascii) : string :=
  if Ascii.eqb c "Y" then pad 4 (year dt)
  else if Ascii.eqb c "m" then pad 2 (month dt)
  else if Ascii.eqb c "d" then pad 2 (day dt)
  else if Ascii.eqb c "H" then pad 2 (hour dt)
  else if Ascii.eqb c "M" then pad 2 (minute dt)
  else if Ascii.eqb c "S" then pad 2 (second dt)
  else String "%" (String c "").

Fixpoint format (dt : t) (fmt : string) : string :=
  match fmt with
  | "" => ""
  | String c fmt' =>
      if Ascii.eqb c "%" then
        match fmt' with
        | "" => "%"
        | String k fmt'' => directive dt k ++ format dt fmt''
        end
      else String c (format dt fmt')
  end.
End Civil.

Definition Local_Datetime (utcoffset : Z -> Z) : Datetime := {|
  datetime := Civil.t;
  fromtimestamp := fun t => Civil.of_seconds (t + utcoffset t);
  strftime := Civil.format
|}.

(** A process that runs with [TZ=UTC]. *)
Definition UTC_Datetime : Datetime := Local_Datetime (fun _ => 0).

(** A zone one hour east of UTC from the instant 1000 on, on UTC before. *)
Definition Shifting_Datetime : Datetime :=
  Local_Datetime (fun t => if t <? 1000 then 0 else 3600).

(** ** Data model *)

Module Comment.
Record t := {
  author_display_name : option string;
  created_ut : Z;
  score : Z;
  body : string
}.
End Comment.

#[warnings="-register-all"]
Inductive CommentTreeNode : Type :=
  Node { value : Comment.t; children : list CommentTreeNode }.

(** ** The comment-tree formatter *)

Section Formatter.
Context `{DT : Datetime}.

Definition _format_date (timestamp : Z) : string :=
  strftime (fromtimestamp timestamp) "%Y-%m-%d %H:%M:%S UTC".

Definition reply_key (reply_node : CommentTreeNode) : Z :=
  Comment.created_ut (value reply_node).

Definition header_line (comment : Comment.t) (depth : Z) : string :=
  let author_name := py_or (Comment.author_display_name comment) "[deleted]" in
  let created_date := _format_date (Comment.created_ut comment) in
  let indent := str_mul "    " depth in
  indent ++ created_date ++ " [" ++ author_name ++ "] Score: "
    ++ str_int (Comment.score comment) ++ NL.

Definition body_line (comment : Comment.t) (depth : Z) : string :=
  let indent := str_mul "    " depth in
  indent ++ Comment.body comment ++ NL.

(** The recursive calls are made on the children as they stand and their
    results are sorted with the keys, which keeps the recursion structural;
    [_format_comment_tree_eq] below gives the loop as the source has it,
    over [sorted(comment_node.children, ...)]. *)
Fixpoint _format_comment_tree (comment_node : CommentTreeNode) (depth : Z)
  {struct comment_node} : string :=
  match comment_node with
  | Node comment replies =>
      let result := "" in
      let indent := str_mul "    " depth in
      let result := result ++ header_line comment depth in
      let result := result ++ body_line comment depth in
      let rendered :=
        map (fun child_node =>
               (reply_key child_node,
                _format_comment_tree child_node (depth + 1))) replies in
      fold_left
        (fun result r => result ++ (indent ++ "> ") ++ snd r)
        (sorted_reverse fst rendered) result
  end.
End Formatter.

(** A submission of one of the client library's classes; [Other] stands for
    every class that is none of the three the code tests for. *)
Module Submission.
Inductive variety : Type :=
| LinkPost (link : string)
| TextPost (body : string)
| GalleryPost (gallery_link : string)
| Other.

Record t := {
  title : string;
  score : Z;
  author_display_name : option string;
  subreddit_name : string;
  permalink : string;
  comment_count : Z;
  class : variety
}.
End Submission.

Module Forest.
Record t := { children : list CommentTreeNode }.
End Forest.

Definition _get_post_type (submission : Submission.t) : string :=
  match Submission.class submission with
  | Submission.LinkPost _ => "link"
  | Submission.TextPost _ => "text"
  | Submission.GalleryPost _ => "gallery"
  | Submission.Other => "unknown"
  end.

Definition _get_content (submission : Submission.t) : option string :=
  match Submission.class submission with
  | Submission.LinkPost _ => Some (Submission.permalink submission)
  | Submission.TextPost body => Some body
  | Submission.GalleryPost gallery_link => Some gallery_link
  | Submission.Other => None
  end.

(** ** The URL resolver: [re.search(r"/comments/([^/]+)", reddit_url)] *)

Fixpoint strip_prefix (p s : string) : option string :=
  match p, s with
  | "", _ => Some s
  | String a p', String b s' =>
      if Ascii.eqb a b then strip_prefix p' s' else None
  | String _ _, "" => None
  end.

(** The longest run of non-slash characters at the start of [s]: [[^/]*]. *)
Fixpoint take_non_slash (s : string) : string :=
  match s with
  | "" => ""
  | String c s' =>
      if Ascii.eqb c slash then "" else String c (take_non_slash s')
  end.

(** The pattern matched at the start of [s]; the result is group 1. *)
Definition re_match_comments (s : string) : option string :=
  match strip_prefix "/comments/" s with
  | None => None
  | Some rest =>
      match take_non_slash rest with
      | "" => None
      | post_id => Some post_id
      end
  end.

(** [re.search]: the match at the leftmost position that has one. *)
Fixpoint re_search_comments (s : string) : option string :=
  match re_match_comments s with
  | Some post_id => Some post_id
  | None =>
      match s with
      | "" => None
      | String _ s' => re_search_comments s'
      end
  end.

(** ** Programs that call the Reddit client *)

(** A Python exception, as far as the code looks at it: [str(e)]. *)
Record Exception := { str_exc : string }.

Inductive ClientCall : Type -> Type :=
| submission_fetch (post_id : string) : ClientCall Submission.t
| comment_tree_fetch (post_id sort : string) (limit depth : option Z)
  : ClientCall Forest.t
| subreddit_pull_hot (subreddit : string) (limit : Z)
  : ClientCall (list Submission.t).

Inductive LogLevel := INFO | ERROR.

(** The parts of a logged f-string; the text of a library object is the
    library's. *)
Inductive LogPart :=
| Lit (s : string)
| Obj (submission : Submission.t).

(** A program returns, or awaits a call of the client, which answers with a
    value or raises, or logs and goes on. *)
Inductive Prog (A : Type) : Type :=
| Ret (a : A)
| Await {X : Type} (c : ClientCall X) (k : Exception + X -> Prog A)
| Log (level : LogLevel) (msg : list LogPart) (k : Prog A).

Arguments Ret {A} a.
Arguments Await {A X} c k.
Arguments Log {A} level msg k.

Fixpoint bind {A B : Type} (p : Prog A) (f : A -> Prog B) : Prog B :=
  match p with
  | Ret a => f a
  | Await c k => Await c (fun r => bind (k r) f)
  | Log level msg k => Log level msg (bind k f)
  end.

(** The body of a [try]: a program that ends in a value or in an exception. *)
Definition Try (A : Type) : Type := Prog (Exception + A).

Definition ret {A : Type} (a : A) : Try A := Ret (inr a).

Definition await {X : Type} (c : ClientCall X) : Try X := Await c Ret.

Definition logging (level : LogLevel) (msg : list LogPart) : Try unit :=
  Log level msg (Ret (inr tt)).

Definition bind_try {A B : Type} (p : Try A) (f : A -> Try B) : Try B :=
  bind p (fun r => match r with
                   | inl e => Ret (inl e)
                   | inr a => f a
                   end).

(** [try: body except Exception as e: handler]. *)
Definition try_except {A : Type} (body : Try A) (handler : Exception -> Prog A)
  : Prog A :=
  bind body (fun r => match r with
                      | inl e => handler e
                      | inr a => Ret a
                      end).

Notation "x <- p ;; q" := (bind_try p (fun x => q))
  (at level 61, p at next level, right associativity).
Notation "p ;; q" := (bind_try p (fun _ => q))
  (at level 61, right associativity).

(** The world a program runs in: the client answers each call and logging
    records each message, both with the state of the world at that point. *)
Record Env (World : Type) := {
  call : forall X, ClientCall X -> World -> (Exception + X) * World;
  emit : LogLevel -> list LogPart -> World -> World
}.

Arguments call {World} _ {X} _ _.
Arguments emit {World} _ _ _ _.

Section Run.
Context {World : Type} (env : Env World).

Fixpoint run {A : Type} (p : Prog A) (w : World) : A * World :=
  match p with
  | Ret a => (a, w)
  | Await c k => let '(r, w') := call env c w in run (k r) w'
  | Log level msg k => run k (emit env level msg w)
  end.

(** The exceptions the client raised during the run, in order. *)
Fixpoint raised {A : Type} (p : Prog A) (w : World) : list Exception :=
  match p with
  | Ret _ => []
  | Await c k =>
      let '(r, w') := call env c w in
      match r with
      | inl e => e :: raised (k r) w'
      | inr _ => raised (k r) w'
      end
  | Log level msg k => raised k (emit env level msg w)
  end.

(** The calls made to the client during the run, in order. *)
Fixpoint awaited {A : Type} (p : Prog A) (w : World) : nat :=
  match p with
  | Ret _ => O
  | Await c k => let '(r, w') := call env c w in S (awaited (k r) w')
  | Log level msg k => awaited k (emit env level msg w)
  end.
End Run.

(** ** The tool entry points *)

(** What a tool hands back: a string, or a list of strings. *)
Inductive ToolResult :=
| Text (s : string)
| Parts (sections : list string).

Section Tools.
Context `{DT : Datetime}.

Definition fetch_reddit_post_from_url (reddit_url : string) : Prog ToolResult :=
  try_except
    (match re_search_comments reddit_url with
     | None => ret (Text "Invalid Reddit post URL. Could not extract post ID.")
     | Some post_id =>
         submission <- await (submission_fetch post_id) ;;
         logging INFO [Lit "Fetched submission: "; Obj submission] ;;
         let main_content_parts :=
           [ "Title: " ++ Submission.title submission;
             "Score: " ++ str_int (Submission.score submission);
             "Author: "
               ++ py_or (Submission.author_display_name submission) "[deleted]";
             "Subreddit: " ++ Submission.subreddit_name submission;
             "Type: " ++ _get_post_type submission;
             "Content: " ++ str_optional (_get_content submission);
             "Link: https://reddit.com" ++ Submission.permalink submission;
             "Number of Comments: "
               ++ str_int (Submission.comment_count submission) ] in
         let comment_limit := None in
         let comment_depth := None in
         comment_forest <-
           await (comment_tree_fetch post_id "top" comment_limit comment_depth) ;;
         let main_content_parts :=
           match Forest.children comment_forest with
           | [] => main_content_parts
           | _ :: _ =>
               let comments_header := "Comments:" in
               let formatted_top_comments :=
                 fold_left
                   (fun formatted top_level_comment_node =>
                      (formatted
                         ++ [_format_comment_tree top_level_comment_node 0])%list)
                   (Forest.children comment_forest) [] in
               match formatted_top_comments with
               | [] => main_content_parts
               | _ :: _ =>
                   let comments_section_str :=
                     comments_header ++ NL ++ str_join NL formatted_top_comments in
                   (main_content_parts ++ [comments_section_str])%list
               end
           end in
         ret (Parts main_content_parts)
     end)
    (fun e =>
       Log ERROR
         [Lit ("An error occurred while fetching post from URL " ++ reddit_url
                 ++ ": " ++ str_exc e)]
         (Ret (Text ("An error occurred: " ++ str_exc e)))).

Definition fetch_reddit_hot_threads (subreddit : string) (limit : Z)
  : Prog string :=
  try_except
    (submissions <- await (subreddit_pull_hot subreddit limit) ;;
     let posts :=
       fold_left
         (fun posts submission =>
            let post_info :=
              "Title: " ++ Submission.title submission ++ NL
              ++ "Score: " ++ str_int (Submission.score submission) ++ NL
              ++ "Comments: "
              ++ str_int (Submission.comment_count submission) ++ NL
              ++ "Author: "
              ++ py_or (Submission.author_display_name submission) "[deleted]"
              ++ NL
              ++ "Type: " ++ _get_post_type submission ++ NL
              ++ "Content: " ++ str_optional (_get_content submission) ++ NL
              ++ "Link: https://reddit.com" ++ Submission.permalink submission
              ++ NL
              ++ "---" in
            (posts ++ [post_info])%list)
         submissions [] in
     ret (str_join (NL ++ NL) posts))
    (fun e =>
       Log ERROR [Lit ("An error occurred: " ++ str_exc e)]
         (Ret ("An error occurred: " ++ str_exc e))).

Definition fetch_reddit_post_content
  (post_id : string) (comment_limit comment_depth : Z) : Prog string :=
  try_except
    (submission <- await (submission_fetch post_id) ;;
     let content :=
       "Title: " ++ Submission.title submission ++ NL
       ++ "Score: " ++ str_int (Submission.score submission) ++ NL
       ++ "Author: "
       ++ py_or (Submission.author_display_name submission) "[deleted]" ++ NL
       ++ "Type: " ++ _get_post_type submission ++ NL
       ++ "Content: " ++ str_optional (_get_content submission) ++ NL in
     comments <-
       await (comment_tree_fetch post_id "top"
                (Some comment_limit) (Some comment_depth)) ;;
     let content :=
       match Forest.children comments with
       | _ :: _ =>
           let content := content ++ NL ++ "Comments:" ++ NL in
           fold_left
             (fun content comment =>
                content ++ (NL ++ _format_comment_tree comment 0))
             (Forest.children comments) content
       | [] => content ++ NL ++ "No comments found."
       end in
     ret content)
    (fun e => Ret ("An error occurred: " ++ str_exc e)).

(** One request to the tool surface. *)
Inductive Invocation :=
| invoke_post_from_url (reddit_url : string)
| invoke_hot_threads (subreddit : string) (limit : Z)
| invoke_post_content (post_id : string) (comment_limit comment_depth : Z).

Definition invoke (i : Invocation) : Prog ToolResult :=
  match i with
  | invoke_post_from_url reddit_url => fetch_reddit_post_from_url reddit_url
  | invoke_hot_threads subreddit limit =>
      bind (fetch_reddit_hot_threads subreddit limit) (fun s => Ret (Text s))
  | invoke_post_content post_id comment_limit comment_depth =>
      bind (fetch_reddit_post_content post_id comment_limit comment_depth)
        (fun s => Ret (Text s))
  end.
End Tools.


(** ** Notions the properties are stated with *)

(** The [created_ut] values that occur in a tree. *)
Fixpoint timestamps (node : CommentTreeNode) : list Z :=
  match node with
  | Node comment replies =>
      Comment.created_ut comment :: flat_map timestamps replies
  end.

Section Rendering.
Context `{DT : Datetime}.

(** [sorted_replies] of the source: the children in the order of the loop. *)
Definition sorted_replies (comment_node : CommentTreeNode)
  : list CommentTreeNode :=
  sorted_reverse reply_key (children comment_node).

(** What one turn of the loop appends to [result]. *)
Definition child_block (depth : Z) (child_node : CommentTreeNode) : string :=
  (str_mul "    " depth ++ "> ") ++ _format_comment_tree child_node (depth + 1).

(** Every line of every child's block starts with the parent's indentation
    and ["> "]. *)
Definition every_line_quoted (comment_node : CommentTreeNode) (depth : Z)
  : bool :=
  forallb
    (fun block =>
       forallb (String.prefix (str_mul "    " depth ++ "> ")) (lines block))
    (map (child_block depth) (sorted_replies comment_node)).
End Rendering.

(** Each element is strictly newer than all that follow it. *)
Definition strictly_descending (nodes : list CommentTreeNode) : Prop :=
  StronglySorted (fun a b => reply_key a > reply_key b) nodes.

(** No character of [s] is a slash. *)
Fixpoint no_slash (s : string) : bool :=
  match s with
  | "" => true
  | String c s' => negb (Ascii.eqb c slash) && no_slash s'
  end.

(** [url] has the path segment [/comments/] with a non-slash character
    after it. *)
Definition contains_segment (url : string) : Prop :=
  exists before c rest,
    url = before ++ "/comments/" ++ String c rest /\ c <> slash.

(** [q] starts with [/comments/], and [post_id] is the longest run of
    non-slash characters after it: one character at least, up to the next
    slash or the end. *)
Definition segment_at_start (q post_id : string) : Prop :=
  exists rest,
    q = "/comments/" ++ post_id ++ rest
    /\ post_id <> ""
    /\ no_slash post_id = true
    /\ (rest = "" \/ exists r, rest = String slash r).

(** [post_id] is the run after the first segment of [url]: no segment starts
    to the left of it. *)
Definition first_segment (url post_id : string) : Prop :=
  exists before q,
    url = before ++ q
    /\ segment_at_start q post_id
    /\ forall before' q' post_id',
         url = before' ++ q' ->
         (String.length before' < String.length before)%nat ->
         ~ segment_at_start q' post_id'.

(** ** Sample data *)

Definition comment (author : option string) (ut sc : Z) (text : string)
  : Comment.t :=
  {| Comment.author_display_name := author; Comment.created_ut := ut;
     Comment.score := sc; Comment.body := text |}.

Definition leaf (author : option string) (ut sc : Z) (text : string)
  : CommentTreeNode :=
  Node (comment author ut sc text) [].

Module Sample.
(** A comment with one reply. *)
Definition thread : CommentTreeNode :=
  Node (comment (Some "alice") 100 5 "post") [leaf (Some "bob") 200 3 "reply"].

(** Two replies created in the same second. *)
Definition twins : CommentTreeNode :=
  Node (comment (Some "alice") 100 5 "post")
    [leaf (Some "bob") 200 3 "first"; leaf (Some "carol") 200 1 "second"].

(** Replies created at 100, 300 and 200, the middle one with a reply. *)
Definition oldest := leaf None 100 1 "a".
Definition newest :=
  Node (comment (Some "") 300 (-2) "b") [leaf (Some "dave") 400 7 "d"].
Definition middle := leaf (Some "bob") 200 0 "c".
Definition three : CommentTreeNode :=
  Node (comment (Some "alice") 50 5 "post") [oldest; newest; middle].
End Sample.

Module SampleWorld.
Definition submission : Submission.t :=
  {| Submission.title := "My first Python project";
     Submission.score := 42;
     Submission.author_display_name := Some "alice";
     Submission.subreddit_name := "learnpython";
     Submission.permalink := "/r/learnpython/comments/12345ab/my_first_post/";
     Submission.comment_count := 3;
     Submission.class := Submission.TextPost "Hello" |}.

Definition not_found : Exception := {| str_exc := "404 Not Found" |}.

(** A client that counts the calls made to it. It has every post but
    [missing]; the post [empty] has no comments, those of [locked] cannot be
    fetched, every other post has one thread. It has one subreddit. *)
Definition answer (X : Type) (c : ClientCall X) (calls : nat)
  : (Exception + X) * nat :=
  match c in ClientCall X return (Exception + X) * nat with
  | submission_fetch post_id =>
      if String.eqb post_id "missing" then (inl not_found, S calls)
      else (inr submission, S calls)
  | comment_tree_fetch post_id _ _ _ =>
      if String.eqb post_id "empty"
      then (inr {| Forest.children := [] |}, S calls)
      else if String.eqb post_id "locked" then (inl not_found, S calls)
      else (inr {| Forest.children := [Sample.thread] |}, S calls)
  | subreddit_pull_hot subreddit _ =>
      if String.eqb subreddit "learnpython" then (inr [submission], S calls)
      else (inl not_found, S calls)
  end.

Definition env : Env nat :=
  {| call := answer; emit := fun _ _ calls => calls |}.
End SampleWorld.

(** ** Module start-up: the client's credentials *)

(** Truth value of an [Optional[str]]: [None] and [""] are falsy. *)
Definition truthy (x : option string) : bool :=
  match x with
  | None => false
  | Some "" => false
  | Some _ => true
  end.

(** [CREDS = [x for x in [ID, SECRET, TOKEN] if x]], of the three values
    [os.getenv] gives; the elements are the positional arguments of the
    client's constructor. *)
Definition CREDS
  (REDDIT_CLIENT_ID REDDIT_CLIENT_SECRET REDDIT_REFRESH_TOKEN : option string)
  : list (option string) :=
  filter truthy [REDDIT_CLIENT_ID; REDDIT_CLIENT_SECRET; REDDIT_REFRESH_TOKEN].

(** ** What a run asks of the client and what it logs *)

Inductive Request :=
| request_submission (post_id : string)
| request_comment_tree (post_id sort : string) (limit depth : option Z)
| request_hot (subreddit : string) (limit : Z).

Definition request_of {X : Type} (c : ClientCall X) : Request :=
  match c with
  | submission_fetch post_id => request_submission post_id
  | comment_tree_fetch post_id sort limit depth =>
      request_comment_tree post_id sort limit depth
  | subreddit_pull_hot subreddit limit => request_hot subreddit limit
  end.

Section Trace.
Context {World : Type} (env : Env World).

(** The calls made to the client during the run, in order. *)
Fixpoint requests {A : Type} (p : Prog A) (w : World) : list Request :=
  match p with
  | Ret _ => []
  | Await c k => let '(r, w') := call env c w in request_of c :: requests (k r) w'
  | Log level msg k => requests k (emit env level msg w)
  end.

(** The records handed to [logging] during the run, in order. *)
Fixpoint logged {A : Type} (p : Prog A) (w : World)
  : list (LogLevel * list LogPart) :=
  match p with
  | Ret _ => []
  | Await c k => let '(r, w') := call env c w in logged (k r) w'
  | Log level msg k => (level, msg) :: logged k (emit env level msg w)
  end.
End Trace.

(** The calls an invocation makes when none of them raises. *)
Definition planned_requests (i : Invocation) : list Request :=
  match i with
  | invoke_post_from_url reddit_url =>
      match re_search_comments reddit_url with
      | None => []
      | Some post_id =>
          [request_submission post_id;
           request_comment_tree post_id "top" None None]
      end
  | invoke_hot_threads subreddit limit => [request_hot subreddit limit]
  | invoke_post_content post_id comment_limit comment_depth =>
      [request_submission post_id;
       request_comment_tree post_id "top"
         (Some comment_limit) (Some comment_depth)]
  end.

(** ** Measures of a comment tree *)

(** The number of comments in a tree. *)
Fixpoint count_nodes (node : CommentTreeNode) : nat :=
  match node with
  | Node _ replies => S (list_sum (map count_nodes replies))
  end.

Section Plain.
Context `{DT : Datetime}.

(** No date, author or body in the tree holds a line feed. *)
Fixpoint plain_tree (node : CommentTreeNode) : bool :=
  match node with
  | Node comment replies =>
      no_newline (_format_date (Comment.created_ut comment))
      && no_newline (py_or (Comment.author_display_name comment) "[deleted]")
      && no_newline (Comment.body comment)
      && forallb plain_tree replies
  end.
End Plain.

(** A link post: its link and its permalink differ. *)
Module SampleLink.
Definition post : Submission.t :=
  {| Submission.title := "Release notes";
     Submission.score := 7;
     Submission.author_display_name := Some "carol";
     Submission.subreddit_name := "python";
     Submission.permalink := "/r/python/comments/abc123/release_notes/";
     Submission.comment_count := 0;
     Submission.class := Submission.LinkPost "https://example.com/release-notes" |}.

(** A client whose hot listing has two posts. *)
Definition answer (X : Type) (c : ClientCall X) (calls : nat)
  : (Exception + X) * nat :=
  match c in ClientCall X return (Exception + X) * nat with
  | subreddit_pull_hot _ _ => (inr [SampleWorld.submission; post], S calls)
  | c' => SampleWorld.answer _ c' calls
  end.

Definition env : Env nat :=
  {| call := answer; emit := fun _ _ calls => calls |}.
End SampleLink.

(** ** The comment tree as Python objects

    The formatter once more, on a heap of objects that can be mutated: a
    node object holds its comment and a reference to the list object of its
    children, and [sorted] makes a new list object. A computation threads
    the heap and fails on a missing object, on an object of the wrong class
    and when the recursion is deeper than [fuel]. *)
Module Store.
Definition ref : Type := nat.

Inductive object : Type :=
| node_object (value : Comment.t) (children : ref)
| list_object (items : list ref).

Definition heap : Type := list object.

Definition M (A : Type) : Type := heap -> option (A * heap).

Definition ret {A : Type} (a : A) : M A := fun h => Some (a, h).

Definition fail {A : Type} : M A := fun _ => None.

Definition bind {A B : Type} (m : M A) (f : A -> M B) : M B :=
  fun h =>
    match m h with
    | Some (a, h') => f a h'
    | None => None
    end.

Declare Scope store_scope.
Delimit Scope store_scope with store.
Notation "x <~ m ;; f" := (bind m (fun x => f))
  (at level 61, m at next level, right associativity) : store_scope.

(** [comment_node.value] *)
Definition get_value (comment_node : ref) : M Comment.t :=
  fun h =>
    match nth_error h comment_node with
    | Some (node_object value _) => Some (value, h)
    | _ => None
    end.

(** [comment_node.children] *)
Definition get_children (comment_node : ref) : M ref :=
  fun h =>
    match nth_error h comment_node with
    | Some (node_object _ children) => Some (children, h)
    | _ => None
    end.

(** The elements of a list object, as an iteration over it reads them. *)
Definition get_items (l : ref) : M (list ref) :=
  fun h =>
    match nth_error h l with
    | Some (list_object items) => Some (items, h)
    | _ => None
    end.

(** A new list object, at the next free address. *)
Definition new_list (items : list ref) : M ref :=
  fun h => Some (List.length h, (h ++ [list_object items])%list).

(** The key of every element: [reply_node.value.created_ut]. *)
Fixpoint keyed (nodes : list ref) : M (list (Z * ref)) :=
  match nodes with
  | [] => ret []
  | reply_node :: rest =>
      (value <~ get_value reply_node ;;
       ks <~ keyed rest ;;
       ret ((Comment.created_ut value, reply_node) :: ks))%store
  end.

(** [sorted(l, key=lambda reply_node: reply_node.value.created_ut,
    reverse=True)]: the list [l] is read and a new list is returned. *)
Definition sorted (l : ref) : M ref :=
  (items <~ get_items l ;;
   ks <~ keyed items ;;
   new_list (map snd (sorted_reverse fst ks)))%store.

(** [for x in xs: result = body(result, x)] *)
Fixpoint for_loop {A : Type} (body : string -> A -> M string) (xs : list A)
  (result : string) : M string :=
  match xs with
  | [] => ret result
  | x :: rest => (result' <~ body result x ;; for_loop body rest result')%store
  end.

Section Format.
Context `{DT : Datetime}.

Fixpoint _format_comment_tree (fuel : nat) (comment_node : ref) (depth : Z)
  : M string :=
  match fuel with
  | O => fail
  | S fuel' =>
      (comment <~ get_value comment_node ;;
       let result := "" in
       let indent := str_mul "    " depth in
       let result := result ++ header_line comment depth in
       let result := result ++ body_line comment depth in
       replies <~ get_children comment_node ;;
       sorted_replies <~ sorted replies ;;
       child_nodes <~ get_items sorted_replies ;;
       for_loop
         (fun result child_node =>
            rendered <~ _format_comment_tree fuel' child_node (depth + 1) ;;
            ret (result ++ (indent ++ "> ") ++ rendered))
         child_nodes result)%store
  end.
End Format.

(** The object at [r] in [h] is the tree [t]: a node object with the comment
    of [t] whose list object holds, in order, objects that are the children
    of [t]. *)
Fixpoint represents (h : heap) (t : CommentTreeNode) (r : ref) {struct t}
  : Prop :=
  match t with
  | Node value replies =>
      exists l items,
        nth_error h r = Some (node_object value l)
        /\ nth_error h l = Some (list_object items)
        /\ (fix all (ts : list CommentTreeNode) (rs : list ref) : Prop :=
              match ts, rs with
              | [], [] => True
              | t' :: ts', r' :: rs' => represents h t' r' /\ all ts' rs'
              | _, _ => False
              end) replies items
  end.

(** [Sample.thread] as four objects. *)
Definition thread_heap : heap :=
  [ node_object (comment (Some "alice") 100 5 "post") 1%nat;
    list_object [2%nat];
    node_object (comment (Some "bob") 200 3 "reply") 3%nat;
    list_object [] ].
End Store.

(** The depth of the recursion a tree needs. *)
Fixpoint height (node : CommentTreeNode) : nat :=
  match node with
  | Node _ replies => S (list_max (map height replies))
  end.

(** With [fuel], the tree [t] is rendered from every heap that holds it as
    the pure formatter renders it, and the heap is only extended. *)
Definition rendered_right `{DT : Datetime} (fuel : nat) (t : CommentTreeNode)
  : Prop :=
  forall h r depth,
    Store.represents h t r ->
    exists extra,
      Store._format_comment_tree fuel r depth h
      = Some (_format_comment_tree t depth, (h ++ extra)%list).
(** * Facts *)

(** ** Strings *)

Lemma app_assoc_str (a b c : string) : (a ++ b) ++ c = a ++ (b ++ c).
Proof. induction a as [|x a IH]; simpl; [reflexivity | now rewrite IH]. Qed.

Lemma app_nil_r_str (a : string) : a ++ "" = a.
Proof. induction a as [|x a IH]; simpl; [reflexivity | now rewrite IH]. Qed.

Lemma app_eq_nil_str (a b : string) : a ++ b = "" -> a = "" /\ b = "".
Proof. destruct a; simpl; [auto | discriminate]. Qed.

Lemma last_char_app (a b : string) :
  b <> "" -> last_char (a ++ b) = last_char b.
Proof.
  intros Hb. induction a as [|x a IH]; simpl; [reflexivity|].
  rewrite IH. destruct (a ++ b) eqn:E; [|reflexivity].
  apply app_eq_nil_str in E. tauto.
Qed.

Lemma ends_with_newline_last (s : string) :
  ends_with_newline s = true <-> last_char s = Some LF.
Proof.
  induction s as [|c s IH]; simpl.
  - split; discriminate.
  - destruct s as [|c' s'].
    + rewrite Ascii.eqb_eq. split; congruence.
    + exact IH.
Qed.

Lemma ends_with_newline_app (a b : string) :
  ends_with_newline b = true -> ends_with_newline (a ++ b) = true.
Proof.
  intros Hb. apply ends_with_newline_last.
  rewrite last_char_app.
  - now apply ends_with_newline_last.
  - intros ->. discriminate.
Qed.

Lemma lines_cons (c : ascii) (s : string) :
  lines (String c s) =
    if Ascii.eqb c LF then "" :: lines s
    else match lines s with
         | [] => [String c ""]
         | l :: ls => String c l :: ls
         end.
Proof. reflexivity. Qed.

(** A block that ends in a line feed keeps its lines apart from what follows. *)
Lemma lines_app (a b : string) :
  ends_with_newline a = true -> lines (a ++ b) = (lines a ++ lines b)%list.
Proof.
  induction a as [|c a IH]; [discriminate|].
  intros H. destruct a as [|c' a'].
  - simpl in H. simpl append. rewrite !lines_cons, H. reflexivity.
  - specialize (IH H).
    change (String c (String c' a') ++ b) with (String c (String c' a' ++ b)).
    rewrite (lines_cons c (String c' a' ++ b)), (lines_cons c (String c' a')), IH.
    destruct (Ascii.eqb c LF); [reflexivity|].
    destruct (lines (String c' a')) eqn:E; [|reflexivity].
    exfalso. clear -E. rewrite lines_cons in E.
    destruct (Ascii.eqb c' LF); [discriminate|].
    destruct (lines a'); discriminate.
Qed.

(** A prefix without line feeds goes to the first line only. *)
Lemma lines_prefix (p s : string) :
  no_newline p = true -> p <> "" -> lines (p ++ s) = quote_first p (lines s).
Proof.
  induction p as [|c p IH]; [congruence|].
  intros Hnl _. simpl in Hnl. apply andb_prop in Hnl as [Hc Hp].
  apply negb_true_iff in Hc.
  change (String c p ++ s) with (String c (p ++ s)).
  rewrite lines_cons, Hc.
  destruct p as [|c' p'].
  - simpl. destruct (lines s); reflexivity.
  - rewrite IH by (assumption || discriminate).
    destruct (lines s); reflexivity.
Qed.

Lemma no_newline_app (a b : string) :
  no_newline (a ++ b) = no_newline a && no_newline b.
Proof.
  induction a as [|c a IH]; simpl; [reflexivity|].
  now rewrite IH, andb_assoc.
Qed.

Lemma no_newline_indent (depth : Z) : no_newline (str_mul "    " depth) = true.
Proof.
  unfold str_mul. induction (Z.to_nat depth) as [|n IH]; [reflexivity|].
  simpl. exact IH.
Qed.

Lemma fold_left_append {A : Type} (h : A -> string) (l : list A) (init : string) :
  fold_left (fun result x => result ++ h x) l init
  = init ++ str_concat (map h l).
Proof.
  revert init. induction l as [|x l IH]; intros init; simpl.
  - now rewrite app_nil_r_str.
  - now rewrite IH, app_assoc_str.
Qed.

Lemma fold_left_map {A B C : Type} (f : C -> B -> C) (g : A -> B) (l : list A) (i : C) :
  fold_left f (map g l) i = fold_left (fun acc x => f acc (g x)) l i.
Proof.
  revert i. induction l as [|x l IH]; intros i; simpl; [reflexivity | apply IH].
Qed.

Lemma fold_left_snoc {A B : Type} (g : A -> B) (l : list A) (init : list B) :
  fold_left (fun acc x => (acc ++ [g x])%list) l init = (init ++ map g l)%list.
Proof.
  revert init. induction l as [|x l IH]; intros init; simpl.
  - now rewrite app_nil_r.
  - rewrite IH, <- app_assoc. reflexivity.
Qed.

(** ** The sort *)

Section SortedFacts.
Context {A : Type} (key : A -> Z).

Lemma insert_reverse_perm (x : A) (l : list A) :
  Permutation (x :: l) (insert_reverse key x l).
Proof.
  induction l as [|y l IH]; simpl; [reflexivity|].
  destruct (key y <=? key x); [reflexivity|].
  rewrite perm_swap. now apply perm_skip.
Qed.

Lemma sorted_reverse_perm (l : list A) : Permutation l (sorted_reverse key l).
Proof.
  induction l as [|x l IH]; simpl; [constructor|].
  rewrite <- insert_reverse_perm. now apply perm_skip.
Qed.

Lemma insert_reverse_sorted (x : A) (l : list A) :
  Sorted (descending key) l -> Sorted (descending key) (insert_reverse key x l).
Proof.
  induction l as [|y l IH]; intros Hs; simpl.
  - repeat constructor.
  - destruct (key y <=? key x) eqn:E.
    + constructor; [assumption|]. constructor. unfold descending. lia.
    + inversion Hs as [|? ? Hl Hhd]; subst.
      constructor; [now apply IH|].
      destruct l as [|z l]; simpl.
      * constructor. unfold descending. lia.
      * destruct (key z <=? key x).
        -- constructor. unfold descending. lia.
        -- inversion Hhd; subst. now constructor.
Qed.

Lemma sorted_reverse_sorted (l : list A) :
  StronglySorted (descending key) (sorted_reverse key l).
Proof.
  apply Sorted_StronglySorted.
  - intros a b c. unfold descending. lia.
  - induction l as [|x l IH]; simpl; [constructor|].
    now apply insert_reverse_sorted.
Qed.

Lemma insert_reverse_stable (k : Z) (x : A) (l : list A) :
  filter (has_key key k) (insert_reverse key x l) = filter (has_key key k) (x :: l).
Proof.
  induction l as [|y l IH]; [reflexivity|].
  simpl insert_reverse. destruct (key y <=? key x) eqn:E; [reflexivity|].
  simpl in *. rewrite IH. unfold has_key.
  destruct (key x =? k) eqn:Ex; [|reflexivity].
  destruct (key y =? k) eqn:Ey; [|reflexivity]. lia.
Qed.

(** Stability: the elements of each key are in the order they came in. *)
Lemma sorted_reverse_stable (k : Z) (l : list A) :
  filter (has_key key k) (sorted_reverse key l) = filter (has_key key k) l.
Proof.
  induction l as [|x l IH]; [reflexivity|].
  simpl sorted_reverse. rewrite insert_reverse_stable.
  simpl. now rewrite IH.
Qed.
End SortedFacts.

Lemma sorted_reverse_map {A B : Type} (key : A -> Z) (key' : B -> Z) (g : A -> B)
  (l : list A) :
  (forall a, key' (g a) = key a) ->
  sorted_reverse key' (map g l) = map g (sorted_reverse key l).
Proof.
  intros Hk. induction l as [|x l IH]; [reflexivity|].
  simpl. rewrite IH. generalize (sorted_reverse key l) as s.
  induction s as [|y s IHs]; [reflexivity|].
  simpl. rewrite !Hk. destruct (key y <=? key x); [reflexivity|].
  simpl. now rewrite IHs.
Qed.

(** ** The formatter *)

Lemma CommentTreeNode_forall_ind (P : CommentTreeNode -> Prop) :
  (forall comment replies, Forall P replies -> P (Node comment replies)) ->
  forall node, P node.
Proof.
  intros step. fix IH 1. intros [comment replies]. apply step.
  induction replies as [|r rs IHrs]; constructor; [apply IH | exact IHrs].
Qed.

Lemma sorted_reverse_Forall {A : Type} (key : A -> Z) (P : A -> Prop) (l : list A) :
  Forall P l -> Forall P (sorted_reverse key l).
Proof. apply Permutation_Forall, sorted_reverse_perm. Qed.

Lemma indent_quote_no_newline (depth : Z) :
  no_newline (str_mul "    " depth ++ "> ") = true.
Proof. now rewrite no_newline_app, no_newline_indent. Qed.

Lemma indent_quote_nonempty (depth : Z) : str_mul "    " depth ++ "> " <> "".
Proof. intros E. apply app_eq_nil_str in E as [_ E]. discriminate. Qed.

Section FormatterFacts.
Context `{DT : Datetime}.

(** The loop of the source, over the sorted children. *)
Lemma _format_comment_tree_eq (comment : Comment.t)
  (replies : list CommentTreeNode) (depth : Z) :
  _format_comment_tree (Node comment replies) depth
  = fold_left
      (fun result child_node =>
         result ++ (str_mul "    " depth ++ "> ")
           ++ _format_comment_tree child_node (depth + 1))
      (sorted_reverse reply_key replies)
      (("" ++ header_line comment depth) ++ body_line comment depth).
Proof.
  simpl _format_comment_tree.
  rewrite (sorted_reverse_map reply_key fst) by reflexivity.
  now rewrite fold_left_map.
Qed.

(** The same in closed form: the two lines of the node, then the blocks. *)
Lemma _format_comment_tree_blocks (comment : Comment.t)
  (replies : list CommentTreeNode) (depth : Z) :
  _format_comment_tree (Node comment replies) depth
  = header_line comment depth ++ body_line comment depth
      ++ str_concat (map (child_block depth) (sorted_reverse reply_key replies)).
Proof.
  rewrite _format_comment_tree_eq.
  rewrite (fold_left_append
             (fun child_node =>
                (str_mul "    " depth ++ "> ")
                  ++ _format_comment_tree child_node (depth + 1))).
  simpl append at 1. now rewrite app_assoc_str.
Qed.

Lemma body_line_ends (comment : Comment.t) (depth : Z) :
  ends_with_newline (body_line comment depth) = true.
Proof.
  unfold body_line. rewrite <- app_assoc_str. now apply ends_with_newline_app.
Qed.

Lemma blocks_end (a : string) (blocks : list string) :
  ends_with_newline a = true ->
  Forall (fun b => ends_with_newline b = true) blocks ->
  ends_with_newline (a ++ str_concat blocks) = true.
Proof.
  intros Ha Hb. revert a Ha.
  induction Hb as [|b bs Hb _ IH]; intros a Ha; simpl.
  - now rewrite app_nil_r_str.
  - rewrite <- app_assoc_str. apply IH. now apply ends_with_newline_app.
Qed.

Lemma _format_comment_tree_ends (node : CommentTreeNode) :
  forall depth, ends_with_newline (_format_comment_tree node depth) = true.
Proof.
  induction node as [comment replies IH] using CommentTreeNode_forall_ind.
  intros depth. rewrite _format_comment_tree_blocks.
  apply ends_with_newline_app, blocks_end; [apply body_line_ends|].
  apply Forall_map, sorted_reverse_Forall.
  eapply Forall_impl; [|exact IH].
  intros child Hc. apply ends_with_newline_app, Hc.
Qed.
End FormatterFacts.

Lemma lines_nil (s : string) : lines s = [] -> s = "".
Proof.
  destruct s as [|c s]; [reflexivity|]. rewrite lines_cons.
  destruct (Ascii.eqb c LF); [discriminate|].
  destruct (lines s); discriminate.
Qed.

Lemma ends_with_newline_split (s : string) :
  ends_with_newline s = true -> exists s', s = s' ++ NL.
Proof.
  induction s as [|c s IH]; [discriminate|].
  destruct s as [|c' s'].
  - simpl. rewrite Ascii.eqb_eq. intros ->. now exists "".
  - intros H. destruct (IH H) as [s0 E]. exists (String c s0).
    simpl. now rewrite <- E.
Qed.

Lemma lines_single (s : string) : no_newline s = true -> lines (s ++ NL) = [s].
Proof.
  induction s as [|c s IH]; [reflexivity|].
  simpl no_newline. intros H. apply andb_prop in H as [Hc Hs].
  apply negb_true_iff in Hc.
  change (String c s ++ NL) with (String c (s ++ NL)).
  now rewrite lines_cons, Hc, IH.
Qed.

Lemma no_newline_uint (d : Decimal.uint) :
  no_newline (NilEmpty.string_of_uint d) = true.
Proof. induction d; simpl; auto. Qed.

Lemma str_int_no_newline (i : Z) : no_newline (str_int i) = true.
Proof.
  unfold str_int, NilZero.string_of_int, NilZero.string_of_uint.
  destruct (Z.to_int i) as [d|d]; destruct d; try reflexivity;
    cbn [no_newline negb Ascii.eqb Bool.eqb LF andb];
    apply (no_newline_uint (_ _)).
Qed.

Section FormatterClaims.
Context `{DT : Datetime}.

(** C1 (amended). One level of recursion puts the parent's indentation and
    one ["> "] in front of the child's rendered block as a whole: the first
    line of the block carries the prefix, the lines after it are those of the
    child's rendering at [depth + 1], unchanged. *)
Theorem quote_prefix_once_per_block (comment : Comment.t)
  (replies : list CommentTreeNode) (depth : Z) :
  let indent := str_mul "    " depth in
  _format_comment_tree (Node comment replies) depth
  = header_line comment depth ++ body_line comment depth
      ++ str_concat
           (map (fun child_node =>
                   (indent ++ "> ")
                     ++ _format_comment_tree child_node (depth + 1))
              (sorted_reverse reply_key replies))
  /\ Forall
       (fun child_node =>
          exists first rest,
            lines (_format_comment_tree child_node (depth + 1)) = first :: rest
            /\ lines ((indent ++ "> ")
                        ++ _format_comment_tree child_node (depth + 1))
               = ((indent ++ "> ") ++ first) :: rest)
       replies.
Proof.
  intros indent. split; [apply _format_comment_tree_blocks|].
  apply Forall_forall. intros child _.
  pose proof (_format_comment_tree_ends child (depth + 1)) as Hend.
  destruct (lines (_format_comment_tree child (depth + 1)))
    as [|first rest] eqn:E.
  - apply lines_nil in E. rewrite E in Hend. discriminate.
  - exists first, rest. split; [reflexivity|].
    unfold indent.
    rewrite lines_prefix, E;
      [reflexivity | apply indent_quote_no_newline | apply indent_quote_nonempty].
Qed.

(** C3 (amended). The children are rendered in the order of a stable sort
    by [created_ut], newest first: the order is a rearrangement of the
    children in which no child is older than one after it and children of
    equal [created_ut] keep the order they had, at every node; children
    created at 100, 300 and 200 come out as 300, 200, 100. *)
Theorem replies_rendered_newest_first (comment : Comment.t)
  (replies : list CommentTreeNode) (depth : Z) :
  let rendered := sorted_reverse reply_key replies in
  _format_comment_tree (Node comment replies) depth
  = header_line comment depth ++ body_line comment depth
      ++ str_concat (map (child_block depth) rendered)
  /\ Permutation replies rendered
  /\ StronglySorted (fun a b => reply_key b <= reply_key a) rendered
  /\ (forall k,
        filter (fun n => reply_key n =? k) rendered
        = filter (fun n => reply_key n =? k) replies)
  /\ (forall a b c,
        reply_key a = 100 -> reply_key b = 300 -> reply_key c = 200 ->
        sorted_reverse reply_key [a; b; c] = [b; c; a]).
Proof.
  intros rendered. split; [apply _format_comment_tree_blocks|].
  split; [apply sorted_reverse_perm|].
  split; [apply (sorted_reverse_sorted reply_key)|].
  split; [intros k; apply (sorted_reverse_stable reply_key)|].
  intros a b c Ha Hb Hc. cbn [sorted_reverse insert_reverse]. rewrite Hb, Hc.
  change (200 <=? 300) with true. cbn [insert_reverse]. rewrite Ha, Hb, Hc.
  reflexivity.
Qed.

(** A node without children renders as its header and its body, each behind
    the indentation and each closed by a line feed, and nothing else. *)
Lemma leaf_header_and_body (comment : Comment.t) (depth : Z) :
  let indent := str_mul "    " depth in
  let out := _format_comment_tree (Node comment []) depth in
  out
  = (indent ++ _format_date (Comment.created_ut comment)
       ++ " [" ++ py_or (Comment.author_display_name comment) "[deleted]"
       ++ "] Score: " ++ str_int (Comment.score comment) ++ NL)
      ++ (indent ++ Comment.body comment ++ NL)
  /\ forall s, out <> s ++ "> ".
Proof.
  intros indent out. split; [reflexivity|].
  intros s E.
  pose proof (_format_comment_tree_ends (Node comment []) depth) as Hend.
  apply ends_with_newline_last in Hend. fold out in Hend.
  rewrite E, last_char_app in Hend; discriminate.
Qed.

(** When the date, the author and the body hold no line feed, the two
    lines of a node without children are its two text lines. *)
Lemma leaf_text_lines (comment : Comment.t) (depth : Z) :
  let indent := str_mul "    " depth in
  let author_name := py_or (Comment.author_display_name comment) "[deleted]" in
  no_newline (_format_date (Comment.created_ut comment)) = true ->
  no_newline author_name = true ->
  no_newline (Comment.body comment) = true ->
  lines (_format_comment_tree (Node comment []) depth)
  = [ indent ++ _format_date (Comment.created_ut comment)
        ++ " [" ++ author_name ++ "] Score: "
        ++ str_int (Comment.score comment);
      indent ++ Comment.body comment ].
Proof.
  intros indent author_name Hdate Hauthor Hbody.
  change (_format_comment_tree (Node comment []) depth)
    with (header_line comment depth ++ body_line comment depth).
  assert (Hh : header_line comment depth
               = (indent ++ _format_date (Comment.created_ut comment)
                    ++ " [" ++ author_name ++ "] Score: "
                    ++ str_int (Comment.score comment)) ++ NL).
  { unfold header_line. fold indent author_name.
    now rewrite !app_assoc_str. }
  assert (Hb : body_line comment depth = (indent ++ Comment.body comment) ++ NL).
  { unfold body_line. fold indent. now rewrite app_assoc_str. }
  rewrite Hh, Hb.
  rewrite lines_app by (now apply ends_with_newline_app).
  rewrite !lines_single; [reflexivity | |];
    rewrite ?no_newline_app; unfold indent;
    rewrite ?no_newline_indent, ?Hdate, ?Hauthor, ?Hbody, ?str_int_no_newline;
    reflexivity.
Qed.

(** C4 (amended). A node without children, formatted at depth [d], renders
    as its header line and its body line and nothing else, each behind four
    spaces times [d] and each closed by a line feed, with no ["> "] at the
    end; these are exactly two lines of text when the date, the author and
    the body hold no line feed. *)
Theorem leaf_two_lines_without_line_feeds (comment : Comment.t) (depth : Z) :
  let indent := str_mul "    " depth in
  let author_name := py_or (Comment.author_display_name comment) "[deleted]" in
  let out := _format_comment_tree (Node comment []) depth in
  out
  = (indent ++ _format_date (Comment.created_ut comment)
       ++ " [" ++ author_name ++ "] Score: "
       ++ str_int (Comment.score comment) ++ NL)
      ++ (indent ++ Comment.body comment ++ NL)
  /\ (forall s, out <> s ++ "> ")
  /\ (no_newline (_format_date (Comment.created_ut comment)) = true ->
      no_newline author_name = true ->
      no_newline (Comment.body comment) = true ->
      lines out
      = [ indent ++ _format_date (Comment.created_ut comment)
            ++ " [" ++ author_name ++ "] Score: "
            ++ str_int (Comment.score comment);
          indent ++ Comment.body comment ]).
Proof.
  intros indent author_name out.
  destruct (leaf_header_and_body comment depth) as [Heq Hend].
  split; [exact Heq|]. split; [exact Hend|].
  apply leaf_text_lines.
Qed.

(** C5. A comment whose [author_display_name] is [None] or the empty string
    is rendered, with [[deleted]] where the name goes in the header line; a
    name that is present and not empty is rendered as it is. *)
Theorem deleted_author_placeholder (ut sc : Z) (text : string)
  (replies : list CommentTreeNode) (depth : Z) :
  let header name :=
    str_mul "    " depth ++ _format_date ut ++ " [" ++ name ++ "] Score: "
      ++ str_int sc ++ NL in
  (exists rest,
     _format_comment_tree (Node (comment None ut sc text) replies) depth
     = header "[deleted]" ++ rest)
  /\ (exists rest,
        _format_comment_tree (Node (comment (Some "") ut sc text) replies) depth
        = header "[deleted]" ++ rest)
  /\ (forall c name,
        exists rest,
          _format_comment_tree
            (Node (comment (Some (String c name)) ut sc text) replies) depth
          = header (String c name) ++ rest).
Proof.
  intros header. repeat split; intros; eexists;
    rewrite _format_comment_tree_blocks; reflexivity.
Qed.

(** C10. The rendering of a node is never empty and ends with a line feed,
    so what is appended after it starts on a line of its own. *)
Theorem rendered_block_newline_terminated (node : CommentTreeNode) (depth : Z) :
  let out := _format_comment_tree node depth in
  out <> ""
  /\ ends_with_newline out = true
  /\ (exists s, out = s ++ NL)
  /\ forall rest, lines (out ++ rest) = (lines out ++ lines rest)%list.
Proof.
  intros out.
  pose proof (_format_comment_tree_ends node depth) as Hend. fold out in Hend.
  split; [intros E; rewrite E in Hend; discriminate|].
  split; [exact Hend|].
  split; [now apply ends_with_newline_split|].
  intros rest. now apply lines_app.
Qed.
End FormatterClaims.

(** The rendering reads nothing of the environment but the text the date
    library gives for the timestamps in the tree: two environments that agree
    on those dates give the same string. *)
Lemma format_deterministic (E1 E2 : Datetime) (node : CommentTreeNode) :
  forall depth : Z,
    (forall t, In t (timestamps node) ->
               @_format_date E1 t = @_format_date E2 t) ->
    @_format_comment_tree E1 node depth = @_format_comment_tree E2 node depth.
Proof.
  induction node as [comment replies IH] using CommentTreeNode_forall_ind.
  intros depth Hdates. rewrite !_format_comment_tree_blocks.
  unfold header_line. rewrite (Hdates (Comment.created_ut comment)) by now left.
  do 2 f_equal. f_equal. apply map_ext_in. intros child Hin.
  apply (Permutation_in _ (Permutation_sym (sorted_reverse_perm reply_key replies)))
    in Hin.
  unfold child_block. f_equal.
  rewrite Forall_forall in IH. apply (IH child Hin).
  intros t Ht. apply Hdates. right. apply in_flat_map. now exists child.
Qed.

(** ** The URL resolver *)

Lemma strip_prefix_app (p s : string) : strip_prefix p (p ++ s) = Some s.
Proof.
  induction p as [|c p IH]; simpl; [reflexivity|].
  now rewrite Ascii.eqb_refl.
Qed.

Lemma strip_prefix_some (p s rest : string) :
  strip_prefix p s = Some rest -> s = p ++ rest.
Proof.
  revert s. induction p as [|c p IH]; intros s; simpl.
  - congruence.
  - destruct s as [|d s]; [discriminate|].
    destruct (Ascii.eqb c d) eqn:E; [|discriminate].
    apply Ascii.eqb_eq in E. subst d. intros H. now rewrite (IH _ H).
Qed.

Lemma take_non_slash_app (post_id rest : string) :
  no_slash post_id = true ->
  rest = "" \/ (exists r, rest = String slash r) ->
  take_non_slash (post_id ++ rest) = post_id.
Proof.
  intros Hid Hrest. induction post_id as [|c s IH]; simpl.
  - destruct Hrest as [-> | [r ->]]; reflexivity.
  - simpl in Hid. apply andb_prop in Hid as [Hc Hs].
    apply negb_true_iff in Hc. rewrite Hc. now rewrite IH.
Qed.

Lemma take_non_slash_split (s : string) :
  exists rest,
    s = take_non_slash s ++ rest
    /\ no_slash (take_non_slash s) = true
    /\ (rest = "" \/ exists r, rest = String slash r).
Proof.
  induction s as [|c s (rest & E & Hn & Hr)]; simpl.
  - exists "". auto.
  - destruct (Ascii.eqb c slash) eqn:Ec.
    + apply Ascii.eqb_eq in Ec. subst c. exists (String slash s).
      repeat split. right. now exists s.
    + exists rest. simpl. rewrite Ec, Hn. repeat split; [|assumption].
      now rewrite <- E.
Qed.

Lemma re_match_comments_spec (q post_id : string) :
  re_match_comments q = Some post_id <-> segment_at_start q post_id.
Proof.
  unfold re_match_comments, segment_at_start. split.
  - destruct (strip_prefix "/comments/" q) as [after|] eqn:E; [|discriminate].
    apply strip_prefix_some in E.
    destruct (take_non_slash_split after) as (rest & Ea & Hn & Hr).
    destruct (take_non_slash after) as [|c run] eqn:Et; [discriminate|].
    intros [= <-]. exists rest. rewrite <- Ea. repeat split; auto. discriminate.
  - intros (rest & -> & Hne & Hn & Hr).
    rewrite strip_prefix_app, take_non_slash_app by assumption.
    destruct post_id; [congruence | reflexivity].
Qed.

Lemma re_search_comments_eq (s : string) :
  re_search_comments s
  = match re_match_comments s with
    | Some post_id => Some post_id
    | None =>
        match s with
        | "" => None
        | String _ s' => re_search_comments s'
        end
    end.
Proof. destruct s; reflexivity. Qed.

Lemma re_match_comments_empty : re_match_comments "" = None.
Proof. reflexivity. Qed.

(** The search finds the run after the first segment. *)
Lemma re_search_comments_first (url post_id : string) :
  first_segment url post_id -> re_search_comments url = Some post_id.
Proof.
  intros (before & q & -> & Hseg & Hfirst).
  induction before as [|c before IH].
  - rewrite re_search_comments_eq.
    apply re_match_comments_spec in Hseg. simpl append. now rewrite Hseg.
  - rewrite re_search_comments_eq.
    destruct (re_match_comments (String c before ++ q)) as [other|] eqn:E.
    + apply re_match_comments_spec in E.
      exfalso. apply (Hfirst "" _ other eq_refl); [simpl; lia | exact E].
    + simpl append. apply IH. intros before' q' post_id' Eq Hlen.
      apply (Hfirst (String c before') q' post_id').
      * simpl. now rewrite Eq.
      * simpl. lia.
Qed.

(** What the search finds is the run after the first segment. *)
Lemma re_search_comments_sound (url post_id : string) :
  re_search_comments url = Some post_id -> first_segment url post_id.
Proof.
  induction url as [|c url IH]; rewrite re_search_comments_eq.
  - rewrite re_match_comments_empty. discriminate.
  - destruct (re_match_comments (String c url)) as [found|] eqn:E.
    + intros [= <-]. apply re_match_comments_spec in E.
      exists "", (String c url). repeat split; [assumption|].
      simpl. intros. lia.
    + intros H. destruct (IH H) as (before & q & Eq & Hseg & Hfirst).
      exists (String c before), q. split; [simpl; now rewrite Eq|].
      split; [assumption|].
      intros before' q' post_id' Eq' Hlen Hseg'.
      destruct before' as [|c' before'].
      * simpl in Eq'. subst q'. apply re_match_comments_spec in Hseg'. congruence.
      * simpl in Eq', Hlen. injection Eq' as _ Eq'.
        apply (Hfirst before' q' post_id' Eq'); [lia | assumption].
Qed.

Lemma re_search_comments_some_iff (url : string) :
  contains_segment url <-> exists post_id, re_search_comments url = Some post_id.
Proof.
  split.
  - intros (before & c & rest & -> & Hc).
    induction before as [|d before IH]; rewrite re_search_comments_eq.
    + change ("" ++ "/comments/" ++ String c rest)
        with ("/comments/" ++ String c rest).
      unfold re_match_comments.
      rewrite (strip_prefix_app "/comments/"). simpl take_non_slash.
      apply Ascii.eqb_neq in Hc. rewrite Hc. eauto.
    + destruct (re_match_comments _); [eauto | exact IH].
  - intros [post_id H]. apply re_search_comments_sound in H.
    destruct H as (before & q & -> & (rest & -> & Hne & Hn & _) & _).
    destruct post_id as [|c run]; [congruence|].
    exists before, c, (run ++ rest). split; [reflexivity|].
    simpl in Hn. apply andb_prop in Hn as [Hc _].
    apply negb_true_iff, Ascii.eqb_neq in Hc. exact Hc.
Qed.

Lemma re_search_comments_none (url : string) :
  ~ contains_segment url <-> re_search_comments url = None.
Proof.
  rewrite re_search_comments_some_iff.
  destruct (re_search_comments url) as [post_id|]; split; intros H.
  - exfalso. apply H. now exists post_id.
  - discriminate.
  - reflexivity.
  - intros [post_id E]. discriminate.
Qed.

(** ** The entry points *)

(** C2. A URL that has the segment [/comments/] with a non-slash character
    after it resolves to the longest run of non-slash characters after the
    first such segment, and the fetch is made for that id; a URL that has no
    such segment ends in the invalid-URL message, without a call of the
    client. *)
Theorem resolve_post_id_first_segment `{DT : Datetime} (reddit_url : string) :
  (contains_segment reddit_url ->
   exists post_id,
     re_search_comments reddit_url = Some post_id
     /\ first_segment reddit_url post_id
     /\ (forall other, first_segment reddit_url other -> other = post_id)
     /\ exists k,
          fetch_reddit_post_from_url reddit_url
          = Await (submission_fetch post_id) k)
  /\ (~ contains_segment reddit_url ->
      re_search_comments reddit_url = None
      /\ fetch_reddit_post_from_url reddit_url
         = Ret (Text "Invalid Reddit post URL. Could not extract post ID.")).
Proof.
  split.
  - intros H. apply re_search_comments_some_iff in H as [post_id H].
    exists post_id. split; [exact H|].
    split; [now apply re_search_comments_sound|].
    split.
    + intros other Ho. apply re_search_comments_first in Ho. congruence.
    + unfold fetch_reddit_post_from_url. rewrite H. eexists. reflexivity.
  - intros H. apply re_search_comments_none in H. split; [exact H|].
    unfold fetch_reddit_post_from_url. now rewrite H.
Qed.

(** What the two helpers compute: the post type is one of the four tags, by
    the class of the submission, and the content is the permalink of a link
    post, the body of a text post, the gallery link of a gallery post and
    [None] otherwise. *)
Lemma post_type_and_content (submission : Submission.t) :
  In (_get_post_type submission) ["link"; "text"; "gallery"; "unknown"]
  /\ match Submission.class submission with
     | Submission.LinkPost _ =>
         _get_post_type submission = "link"
         /\ _get_content submission = Some (Submission.permalink submission)
     | Submission.TextPost body =>
         _get_post_type submission = "text"
         /\ _get_content submission = Some body
     | Submission.GalleryPost gallery_link =>
         _get_post_type submission = "gallery"
         /\ _get_content submission = Some gallery_link
     | Submission.Other =>
         _get_post_type submission = "unknown"
         /\ _get_content submission = None
     end.
Proof.
  unfold _get_post_type, _get_content.
  destruct (Submission.class submission); simpl; auto 6.
Qed.

(** C7. When both fetches succeed, [fetch_reddit_post_content] returns the
    title, score, author, type and content lines followed by one of two
    things: the text [No comments found.] when the forest has no top-level
    comment, and otherwise the [Comments:] heading with the rendering of
    every top-level comment, which does not end in that text. *)
Theorem post_content_comments_or_literal `{DT : Datetime} {World : Type}
  (env : Env World) (post_id : string) (comment_limit comment_depth : Z)
  (w w1 w2 : World) (submission : Submission.t) (comments : Forest.t) :
  call env (submission_fetch post_id) w = (inr submission, w1) ->
  call env
    (comment_tree_fetch post_id "top" (Some comment_limit) (Some comment_depth))
    w1 = (inr comments, w2) ->
  let head :=
    "Title: " ++ Submission.title submission ++ NL
    ++ "Score: " ++ str_int (Submission.score submission) ++ NL
    ++ "Author: "
    ++ py_or (Submission.author_display_name submission) "[deleted]" ++ NL
    ++ "Type: " ++ _get_post_type submission ++ NL
    ++ "Content: " ++ str_optional (_get_content submission) ++ NL in
  exists tail,
    run env (fetch_reddit_post_content post_id comment_limit comment_depth) w
    = (head ++ tail, w2)
    /\ ((Forest.children comments = [] /\ tail = NL ++ "No comments found.")
        \/ (Forest.children comments <> []
            /\ tail
               = NL ++ "Comments:" ++ NL
                 ++ str_concat
                      (map (fun comment => NL ++ _format_comment_tree comment 0)
                         (Forest.children comments))
            /\ forall s, tail <> s ++ "No comments found.")).
Proof.
  intros Hsub Hcom head.
  unfold fetch_reddit_post_content, try_except, bind_try, await.
  cbn [bind run]. rewrite Hsub. cbn [bind run]. rewrite Hcom. cbn [bind run ret].
  fold head.
  destruct (Forest.children comments) as [|first others] eqn:E.
  - eexists. split; [reflexivity|]. left. auto.
  - eexists. split.
    + rewrite (fold_left_append
                 (fun comment => NL ++ _format_comment_tree comment 0)).
      rewrite app_assoc_str. reflexivity.
    + right. split; [discriminate|]. split; [reflexivity|].
      intros s Es.
      assert (Hend : ends_with_newline
                       ((NL ++ "Comments:" ++ NL)
                          ++ str_concat
                               (map (fun comment =>
                                       NL ++ _format_comment_tree comment 0)
                                  (first :: others))) = true).
      { apply blocks_end; [reflexivity|].
        apply Forall_map, Forall_forall. intros comment _.
        apply ends_with_newline_app, _format_comment_tree_ends. }
      apply ends_with_newline_last in Hend.
      rewrite Es, last_char_app in Hend; discriminate.
Qed.

(** C8. Whatever the entry point and its arguments, when a call of the client
    raises an exception with message [m] the result is the string
    [An error occurred: m]; an entry point always ends in a result. *)
Theorem client_exception_becomes_text `{DT : Datetime} {World : Type}
  (env : Env World) (i : Invocation) (w : World) (e : Exception) :
  In e (raised env (invoke i) w) ->
  fst (run env (invoke i) w) = Text ("An error occurred: " ++ str_exc e).
Proof.
  destruct i as [reddit_url | subreddit limit | post_id comment_limit comment_depth];
    unfold invoke, fetch_reddit_post_from_url, fetch_reddit_hot_threads,
      fetch_reddit_post_content, try_except, bind_try, await, logging, ret.
  - destruct (re_search_comments reddit_url) as [post_id|];
      cbn [bind run raised]; [|intros []].
    destruct (call env (submission_fetch post_id) w) as [[e1|submission] w1];
      cbn [bind run raised fst].
    + intros [<-|[]]. reflexivity.
    + destruct (call env (comment_tree_fetch post_id "top" None None) _)
        as [[e2|forest] w2]; cbn [bind run raised fst].
      * intros [<-|[]]. reflexivity.
      * intros [].
  - cbn [bind run raised].
    destruct (call env (subreddit_pull_hot subreddit limit) w)
      as [[e1|submissions] w1]; cbn [bind run raised fst].
    + intros [<-|[]]. reflexivity.
    + intros [].
  - cbn [bind run raised].
    destruct (call env (submission_fetch post_id) w) as [[e1|submission] w1];
      cbn [bind run raised fst].
    + intros [<-|[]]. reflexivity.
    + destruct (call env (comment_tree_fetch post_id "top" _ _) w1)
        as [[e2|forest] w2]; cbn [bind run raised fst].
      * intros [<-|[]]. reflexivity.
      * intros [].
Qed.

(** ** The properties at concrete inputs *)

(** C1, as stated, fails for a comment with one reply: the reply's body line
    follows its quoted header line without a ["> "] of its own. *)
Lemma quote_prefix_every_line_fails :
  lines (@_format_comment_tree UTC_Datetime Sample.thread 0)
  = [ "1970-01-01 00:01:40 UTC [alice] Score: 5";
      "post";
      ">     1970-01-01 00:03:20 UTC [bob] Score: 3";
      "    reply" ]
  /\ @every_line_quoted UTC_Datetime Sample.thread 0 = false.
Proof. split; vm_compute; reflexivity. Qed.

(** C3, as stated, fails for two replies of the same second: they are
    rendered in the order they have, neither strictly newer than the other. *)
Lemma strictly_descending_fails :
  map (fun n => Comment.body (value n)) (sorted_replies Sample.twins)
  = ["first"; "second"]
  /\ ~ strictly_descending (sorted_replies Sample.twins).
Proof.
  split; [reflexivity|].
  intros H. inversion H as [|a l _ Hall]; subst.
  inversion Hall as [|b l' Hgt _]; subst.
  vm_compute in Hgt. discriminate.
Qed.

(** C4, as stated, fails for a comment without replies whose body has two
    lines: the rendering has three lines. *)
Lemma leaf_two_lines_fails :
  lines (@_format_comment_tree UTC_Datetime
           (leaf (Some "bob") 200 3 ("one" ++ NL ++ "two")) 0)
  = [ "1970-01-01 00:03:20 UTC [bob] Score: 3"; "one"; "two" ]
  /\ List.length
       (lines (@_format_comment_tree UTC_Datetime
                 (leaf (Some "bob") 200 3 ("one" ++ NL ++ "two")) 0))
     <> 2%nat.
Proof. split; [reflexivity | discriminate]. Qed.

Lemma leaf_two_lines_without_line_feeds_witness :
  no_newline (@_format_date UTC_Datetime 200) = true
  /\ no_newline (py_or (Some "bob") "[deleted]") = true
  /\ no_newline "reply" = true
  /\ lines (@_format_comment_tree UTC_Datetime (leaf (Some "bob") 200 3 "reply") 1)
     = [ "    1970-01-01 00:03:20 UTC [bob] Score: 3"; "    reply" ].
Proof.
  repeat (split; [reflexivity|]).
  exact (proj2 (proj2
           (leaf_two_lines_without_line_feeds (DT := UTC_Datetime)
              (comment (Some "bob") 200 3 "reply") 1))
           eq_refl eq_refl eq_refl).
Defined.

(** C6, the code at a link post: the type is [link], and the content is the
    permalink of the submission, not the link it posts. *)
Lemma link_post_content_is_permalink :
  _get_post_type SampleLink.post = "link"
  /\ _get_content SampleLink.post
     = Some "/r/python/comments/abc123/release_notes/"
  /\ _get_content SampleLink.post <> Some "https://example.com/release-notes".
Proof. repeat split. discriminate. Qed.

Lemma replies_rendered_newest_first_witness :
  reply_key Sample.oldest = 100
  /\ reply_key Sample.newest = 300
  /\ reply_key Sample.middle = 200
  /\ sorted_reverse reply_key [Sample.oldest; Sample.newest; Sample.middle]
     = [Sample.newest; Sample.middle; Sample.oldest].
Proof.
  split; [reflexivity|]. split; [reflexivity|]. split; [reflexivity|].
  exact (proj2 (proj2 (proj2 (proj2
           (replies_rendered_newest_first (DT := UTC_Datetime)
              (comment (Some "alice") 50 5 "post")
              [Sample.oldest; Sample.newest; Sample.middle] 0))))
           Sample.oldest Sample.newest Sample.middle
           eq_refl eq_refl eq_refl).
Defined.

Lemma resolve_post_id_witness :
  let url := "https://www.reddit.com/r/learnpython/comments/12345ab/my_first_post/" in
  let other := "https://reddit.com/nope" in
  (contains_segment url
   /\ exists post_id,
        re_search_comments url = Some post_id
        /\ first_segment url post_id
        /\ (forall id, first_segment url id -> id = post_id)
        /\ exists k,
             @fetch_reddit_post_from_url UTC_Datetime url
             = Await (submission_fetch post_id) k)
  /\ (~ contains_segment other
      /\ re_search_comments other = None
      /\ @fetch_reddit_post_from_url UTC_Datetime other
         = Ret (Text "Invalid Reddit post URL. Could not extract post ID.")).
Proof.
  intros url other.
  assert (Hurl : contains_segment url).
  { exists "https://www.reddit.com/r/learnpython", "1"%char,
      "2345ab/my_first_post/".
    split; [reflexivity | discriminate]. }
  assert (Hother : ~ contains_segment other).
  { apply re_search_comments_none. reflexivity. }
  split; split; try assumption.
  - exact (proj1 (resolve_post_id_first_segment (DT := UTC_Datetime) url) Hurl).
  - exact (proj2 (resolve_post_id_first_segment (DT := UTC_Datetime) other)
             Hother).
Defined.

Lemma post_content_comments_or_literal_witness :
  let env := SampleWorld.env in
  let submission := SampleWorld.submission in
  let comments := {| Forest.children := [Sample.thread] |} in
  let head :=
    "Title: " ++ Submission.title submission ++ NL
    ++ "Score: " ++ str_int (Submission.score submission) ++ NL
    ++ "Author: "
    ++ py_or (Submission.author_display_name submission) "[deleted]" ++ NL
    ++ "Type: " ++ _get_post_type submission ++ NL
    ++ "Content: " ++ str_optional (_get_content submission) ++ NL in
  call env (submission_fetch "12345ab") 0%nat = (inr submission, 1%nat)
  /\ call env (comment_tree_fetch "12345ab" "top" (Some 20) (Some 3)) 1%nat
     = (inr comments, 2%nat)
  /\ exists tail,
       run env (@fetch_reddit_post_content UTC_Datetime "12345ab" 20 3) 0%nat
       = (head ++ tail, 2%nat)
       /\ ((Forest.children comments = [] /\ tail = NL ++ "No comments found.")
           \/ (Forest.children comments <> []
               /\ tail
                  = NL ++ "Comments:" ++ NL
                    ++ str_concat
                         (map (fun comment =>
                                 NL ++ @_format_comment_tree UTC_Datetime comment 0)
                            (Forest.children comments))
               /\ forall s, tail <> s ++ "No comments found.")).
Proof.
  intros env submission comments head.
  split; [reflexivity|]. split; [reflexivity|].
  exact (post_content_comments_or_literal (DT := UTC_Datetime) env "12345ab" 20 3
           0%nat 1%nat 2%nat submission comments eq_refl eq_refl).
Defined.

Lemma client_exception_becomes_text_witness :
  let env := SampleWorld.env in
  let by_id := @invoke_post_content "missing" 20 3 in
  let by_url := @invoke_post_from_url "https://reddit.com/comments/locked/" in
  let hot := @invoke_hot_threads "nowhere" 10 in
  (In SampleWorld.not_found (raised env (@invoke UTC_Datetime by_id) 0%nat)
   /\ fst (run env (@invoke UTC_Datetime by_id) 0%nat)
      = Text "An error occurred: 404 Not Found")
  /\ (In SampleWorld.not_found (raised env (@invoke UTC_Datetime by_url) 0%nat)
      /\ fst (run env (@invoke UTC_Datetime by_url) 0%nat)
         = Text "An error occurred: 404 Not Found")
  /\ (In SampleWorld.not_found (raised env (@invoke UTC_Datetime hot) 0%nat)
      /\ fst (run env (@invoke UTC_Datetime hot) 0%nat)
         = Text "An error occurred: 404 Not Found").
Proof.
  intros env by_id by_url hot.
  assert (H1 : In SampleWorld.not_found
                 (raised env (@invoke UTC_Datetime by_id) 0%nat))
    by (left; reflexivity).
  assert (H2 : In SampleWorld.not_found
                 (raised env (@invoke UTC_Datetime by_url) 0%nat))
    by (left; reflexivity).
  assert (H3 : In SampleWorld.not_found
                 (raised env (@invoke UTC_Datetime hot) 0%nat))
    by (left; reflexivity).
  split; [|split]; (split; [assumption|]).
  - exact (client_exception_becomes_text (DT := UTC_Datetime) env by_id 0%nat
             SampleWorld.not_found H1).
  - exact (client_exception_becomes_text (DT := UTC_Datetime) env by_url 0%nat
             SampleWorld.not_found H2).
  - exact (client_exception_becomes_text (DT := UTC_Datetime) env hot 0%nat
             SampleWorld.not_found H3).
Defined.

Lemma format_deterministic_witness :
  (forall t, In t (timestamps Sample.three) ->
             @_format_date UTC_Datetime t = @_format_date Shifting_Datetime t)
  /\ @_format_date UTC_Datetime 1000 <> @_format_date Shifting_Datetime 1000
  /\ @_format_comment_tree UTC_Datetime Sample.three 0
     = @_format_comment_tree Shifting_Datetime Sample.three 0.
Proof.
  assert (H : forall t, In t (timestamps Sample.three) ->
                @_format_date UTC_Datetime t = @_format_date Shifting_Datetime t).
  { intros t Ht. simpl in Ht.
    repeat (destruct Ht as [<-|Ht]; [reflexivity|]). destruct Ht. }
  split; [exact H|]. split; [vm_compute; discriminate|].
  exact (format_deterministic UTC_Datetime Shifting_Datetime Sample.three 0 H).
Defined.

(** * Further properties of the code *)

(** ** The entry points on their successful paths *)

(** X1. When the URL has a post id and both fetches succeed, the URL tool
    returns the eight sections of the post, in their order, and after them
    one comments section exactly when the forest has a top-level comment:
    the heading and the renderings of the top-level comments at depth 0, in
    the order of the forest, joined by a line feed. *)
Theorem post_from_url_sections `{DT : Datetime} {World : Type}
  (env : Env World) (reddit_url post_id : string) (w w1 w2 : World)
  (submission : Submission.t) (comment_forest : Forest.t) :
  re_search_comments reddit_url = Some post_id ->
  call env (submission_fetch post_id) w = (inr submission, w1) ->
  call env (comment_tree_fetch post_id "top" None None)
    (emit env INFO [Lit "Fetched submission: "; Obj submission] w1)
  = (inr comment_forest, w2) ->
  let sections :=
    [ "Title: " ++ Submission.title submission;
      "Score: " ++ str_int (Submission.score submission);
      "Author: "
        ++ py_or (Submission.author_display_name submission) "[deleted]";
      "Subreddit: " ++ Submission.subreddit_name submission;
      "Type: " ++ _get_post_type submission;
      "Content: " ++ str_optional (_get_content submission);
      "Link: https://reddit.com" ++ Submission.permalink submission;
      "Number of Comments: "
        ++ str_int (Submission.comment_count submission) ] in
  run env (fetch_reddit_post_from_url reddit_url) w
  = (Parts
       (List.app sections
          match Forest.children comment_forest with
          | [] => []
          | top =>
              [ "Comments:" ++ NL
                  ++ str_join NL
                       (map (fun node => _format_comment_tree node 0) top) ]
          end),
     w2).
Proof.
  intros Hid Hsub Hcom sections.
  unfold fetch_reddit_post_from_url, try_except, bind_try, await, logging, ret.
  rewrite Hid. cbn [bind run]. rewrite Hsub. cbn [bind run]. rewrite Hcom.
  cbn [bind run]. fold sections.
  destruct (Forest.children comment_forest) as [|first others].
  - now rewrite app_nil_r.
  - rewrite (fold_left_snoc (fun node => _format_comment_tree node 0)).
    reflexivity.
Qed.

Lemma ends_app (a b t : string) :
  (exists s, b = s ++ t) -> exists s, a ++ b = s ++ t.
Proof. intros [s ->]. exists (a ++ s). now rewrite app_assoc_str. Qed.

Lemma str_join_ends (sep t : string) (parts : list string) :
  parts <> [] ->
  Forall (fun p => exists s, p = s ++ t) parts ->
  exists s, str_join sep parts = s ++ t.
Proof.
  intros Hne Hall. induction Hall as [|p rest Hp Hrest IH]; [congruence|].
  destruct rest as [|q rest'].
  - exact Hp.
  - change (str_join sep (p :: q :: rest'))
      with (p ++ sep ++ str_join sep (q :: rest')).
    apply ends_app, ends_app, IH. discriminate.
Qed.

(** X2. When the listing succeeds, the hot-threads tool returns one block
    per submission the client yields (its title, score, comment count,
    author, type, content and link, each closed by a line feed, and [---]),
    in the order yielded and however many they are, joined by two line feeds:
    the empty string for an empty listing, and otherwise a text that ends
    with the [---] of its last block. *)
Theorem hot_threads_listing {World : Type}
  (env : Env World) (subreddit : string) (limit : Z) (w w1 : World)
  (submissions : list Submission.t) :
  call env (subreddit_pull_hot subreddit limit) w = (inr submissions, w1) ->
  let post_info submission :=
    "Title: " ++ Submission.title submission ++ NL
    ++ "Score: " ++ str_int (Submission.score submission) ++ NL
    ++ "Comments: " ++ str_int (Submission.comment_count submission) ++ NL
    ++ "Author: "
    ++ py_or (Submission.author_display_name submission) "[deleted]" ++ NL
    ++ "Type: " ++ _get_post_type submission ++ NL
    ++ "Content: " ++ str_optional (_get_content submission) ++ NL
    ++ "Link: https://reddit.com" ++ Submission.permalink submission ++ NL
    ++ "---" in
  let result := fst (run env (fetch_reddit_hot_threads subreddit limit) w) in
  run env (fetch_reddit_hot_threads subreddit limit) w
  = (str_join (NL ++ NL) (map post_info submissions), w1)
  /\ (submissions = [] -> result = "")
  /\ (submissions <> [] -> exists s, result = s ++ "---").
Proof.
  intros Hhot post_info result.
  assert (E : run env (fetch_reddit_hot_threads subreddit limit) w
              = (str_join (NL ++ NL) (map post_info submissions), w1)).
  { unfold fetch_reddit_hot_threads, try_except, bind_try, await, ret.
    cbn [bind run]. rewrite Hhot. cbn [bind run].
    now rewrite (fold_left_snoc post_info). }
  split; [exact E|]. unfold result. rewrite E. cbn [fst]. split.
  - intros ->. reflexivity.
  - intros Hne. apply str_join_ends.
    + destruct submissions; [congruence | discriminate].
    + apply Forall_map, Forall_forall. intros submission _. unfold post_info.
      repeat match goal with
             | |- exists s, _ ++ (_ ++ _) = s ++ "---" => apply ends_app
             end.
      now exists NL.
Qed.

(** ** What the entry points ask of the client *)

(** X3. Whatever the client answers, an invocation makes its planned calls
    in order and stops at the first that raises: the calls made are an
    initial part of the plan (the submission and then its comment tree with
    sort [top] for the two post tools, one listing for the hot tool, nothing
    for a URL without post id), all of it when nothing raised, and at most
    one call raises. *)
Theorem invocation_requests `{DT : Datetime} {World : Type}
  (env : Env World) (i : Invocation) (w : World) :
  (exists n,
     requests env (invoke i) w = firstn n (planned_requests i))
  /\ (raised env (invoke i) w = [] ->
      requests env (invoke i) w = planned_requests i)
  /\ (List.length (raised env (invoke i) w) <= 1)%nat.
Proof.
  destruct i as [reddit_url | subreddit limit | post_id comment_limit comment_depth];
    unfold invoke, planned_requests, fetch_reddit_post_from_url,
      fetch_reddit_hot_threads, fetch_reddit_post_content,
      try_except, bind_try, await, logging, ret.
  - destruct (re_search_comments reddit_url) as [post_id|];
      cbn [bind requests raised];
      [|split; [now exists O | split; [reflexivity | simpl; lia]]].
    destruct (call env (submission_fetch post_id) w) as [[e1|submission] w1];
      cbn [bind requests raised request_of].
    + split; [now exists 1%nat | split; [discriminate | simpl; lia]].
    + destruct (call env (comment_tree_fetch post_id "top" None None) _)
        as [[e2|forest] w2]; cbn [bind requests raised request_of].
      * split; [now exists 2%nat | split; [discriminate | simpl; lia]].
      * split; [now exists 2%nat | split; [reflexivity | simpl; lia]].
  - cbn [bind requests raised].
    destruct (call env (subreddit_pull_hot subreddit limit) w)
      as [[e1|submissions] w1]; cbn [bind requests raised request_of].
    + split; [now exists 1%nat | split; [discriminate | simpl; lia]].
    + split; [now exists 1%nat | split; [reflexivity | simpl; lia]].
  - cbn [bind requests raised].
    destruct (call env (submission_fetch post_id) w) as [[e1|submission] w1];
      cbn [bind requests raised request_of].
    + split; [now exists 1%nat | split; [discriminate | simpl; lia]].
    + destruct (call env (comment_tree_fetch post_id "top" _ _) w1)
        as [[e2|forest] w2]; cbn [bind requests raised request_of].
      * split; [now exists 2%nat | split; [discriminate | simpl; lia]].
      * split; [now exists 2%nat | split; [reflexivity | simpl; lia]].
Qed.

(** X4. The URL tool logs the submission it fetched, once and at [INFO],
    exactly when the URL has a post id and the submission fetch succeeds, and
    after it every exception of the client at [ERROR], with the URL and the
    message; it logs nothing else, so nothing for a URL without post id. The
    hot tool logs every exception at [ERROR] and nothing else; the
    post-content tool logs nothing, also when it fails. *)
Theorem invocation_logging `{DT : Datetime} {World : Type}
  (env : Env World) (w : World) :
  (forall reddit_url,
     logged env (fetch_reddit_post_from_url reddit_url) w
     = (match re_search_comments reddit_url with
        | None => []
        | Some post_id =>
            match fst (call env (submission_fetch post_id) w) with
            | inl _ => []
            | inr submission =>
                [(INFO, [Lit "Fetched submission: "; Obj submission])]
            end
        end
          ++ map (fun e =>
                    (ERROR,
                     [Lit ("An error occurred while fetching post from URL "
                             ++ reddit_url ++ ": " ++ str_exc e)]))
               (raised env (fetch_reddit_post_from_url reddit_url) w))%list)
  /\ (forall subreddit limit,
        logged env (fetch_reddit_hot_threads subreddit limit) w
        = map (fun e => (ERROR, [Lit ("An error occurred: " ++ str_exc e)]))
            (raised env (fetch_reddit_hot_threads subreddit limit) w))
  /\ (forall post_id comment_limit comment_depth,
        logged env
          (fetch_reddit_post_content post_id comment_limit comment_depth) w
        = []).
Proof.
  unfold fetch_reddit_post_from_url, fetch_reddit_hot_threads,
    fetch_reddit_post_content, try_except, bind_try, await, logging, ret.
  split; [|split].
  - intros reddit_url.
    destruct (re_search_comments reddit_url) as [post_id|];
      cbn [bind logged raised]; [|reflexivity].
    destruct (call env (submission_fetch post_id) w) as [[e1|submission] w1];
      cbn [bind logged raised fst]; [reflexivity|].
    destruct (call env (comment_tree_fetch post_id "top" None None) _)
      as [[e2|forest] w2]; reflexivity.
  - intros subreddit limit. cbn [bind logged raised].
    destruct (call env (subreddit_pull_hot subreddit limit) w)
      as [[e1|submissions] w1]; reflexivity.
  - intros post_id comment_limit comment_depth. cbn [bind logged].
    destruct (call env (submission_fetch post_id) w) as [[e1|submission] w1];
      cbn [bind logged]; [reflexivity|].
    destruct (call env (comment_tree_fetch post_id "top" _ _) w1)
      as [[e2|forest] w2]; reflexivity.
Qed.

(** ** The lines of a rendering *)

Lemma lines_str_concat (blocks : list string) :
  Forall (fun b => ends_with_newline b = true) blocks ->
  lines (str_concat blocks) = List.concat (map lines blocks).
Proof.
  induction 1 as [|b bs Hb _ IH]; [reflexivity|].
  simpl. now rewrite lines_app, IH.
Qed.

Lemma quote_first_length (p : string) (ls : list string) :
  ls <> [] -> List.length (quote_first p ls) = List.length ls.
Proof. destruct ls; [congruence | reflexivity]. Qed.

Lemma prefix_split (a s : string) :
  String.prefix a s = true <-> exists r, s = a ++ r.
Proof.
  revert s. induction a as [|c a IH]; intros s.
  - split; [intros _; now exists s | intros _; now destruct s].
  - destruct s as [|d s]; simpl.
    + split; [discriminate | intros [r E]; discriminate].
    + destruct (ascii_dec c d) as [->|Hcd].
      * rewrite IH. split; intros [r E]; exists r; simpl in *; congruence.
      * split; [discriminate | intros [r E]; simpl in E; congruence].
Qed.

Lemma prefix_trans (a b c : string) :
  String.prefix a b = true -> String.prefix b c = true ->
  String.prefix a c = true.
Proof.
  rewrite !prefix_split. intros [r ->] [r' ->].
  exists (r ++ r'). apply app_assoc_str.
Qed.

Lemma str_repeat_comm (s : string) (n : nat) :
  s ++ str_repeat s n = str_repeat s n ++ s.
Proof.
  induction n as [|n IH]; simpl.
  - now rewrite app_nil_r_str.
  - now rewrite IH at 1; rewrite app_assoc_str.
Qed.

Lemma indent_prefix_succ (depth : Z) :
  String.prefix (str_mul "    " depth) (str_mul "    " (depth + 1)) = true.
Proof.
  apply prefix_split. unfold str_mul.
  destruct (Z.leb_spec 0 depth) as [H|H].
  - replace (Z.to_nat (depth + 1)) with (S (Z.to_nat depth)) by lia.
    exists "    ". cbn [str_repeat]. apply str_repeat_comm.
  - replace (Z.to_nat depth) with O by lia. now eexists.
Qed.

Section RenderingLines.
Context `{DT : Datetime}.

Lemma header_line_eq (comment : Comment.t) (depth : Z) :
  header_line comment depth
  = (str_mul "    " depth ++ _format_date (Comment.created_ut comment)
       ++ " [" ++ py_or (Comment.author_display_name comment) "[deleted]"
       ++ "] Score: " ++ str_int (Comment.score comment)) ++ NL.
Proof. unfold header_line. now rewrite !app_assoc_str. Qed.

Lemma body_line_eq (comment : Comment.t) (depth : Z) :
  body_line comment depth = (str_mul "    " depth ++ Comment.body comment) ++ NL.
Proof. unfold body_line. now rewrite app_assoc_str. Qed.

(** The lines of a node whose own date, author and body hold no line feed:
    its header, its body, and per child in sorted order the lines of the
    child's rendering with the quote prefix on the first. *)
Lemma lines_format_node (comment : Comment.t) (replies : list CommentTreeNode)
  (depth : Z) :
  no_newline (_format_date (Comment.created_ut comment)) = true ->
  no_newline (py_or (Comment.author_display_name comment) "[deleted]") = true ->
  no_newline (Comment.body comment) = true ->
  lines (_format_comment_tree (Node comment replies) depth)
  = (str_mul "    " depth ++ _format_date (Comment.created_ut comment)
       ++ " [" ++ py_or (Comment.author_display_name comment) "[deleted]"
       ++ "] Score: " ++ str_int (Comment.score comment))
    :: (str_mul "    " depth ++ Comment.body comment)
    :: List.concat
         (map (fun child_node =>
                 quote_first (str_mul "    " depth ++ "> ")
                   (lines (_format_comment_tree child_node (depth + 1))))
            (sorted_reverse reply_key replies)).
Proof.
  intros Hdate Hauthor Hbody.
  rewrite _format_comment_tree_blocks, header_line_eq, body_line_eq.
  rewrite (lines_app (_ ++ NL)) by (now apply ends_with_newline_app).
  rewrite (lines_app ((str_mul "    " depth ++ Comment.body comment) ++ NL))
    by (now apply ends_with_newline_app).
  rewrite !lines_single.
  - simpl app. do 2 f_equal. rewrite lines_str_concat.
    + rewrite map_map. f_equal. apply map_ext. intros child.
      unfold child_block. apply lines_prefix;
        [apply indent_quote_no_newline | apply indent_quote_nonempty].
    + apply Forall_map, Forall_forall. intros child _.
      apply ends_with_newline_app, _format_comment_tree_ends.
  - now rewrite no_newline_app, no_newline_indent, Hbody.
  - rewrite !no_newline_app, no_newline_indent, Hdate, Hauthor,
      str_int_no_newline. reflexivity.
Qed.

Lemma lines_format_nonempty (node : CommentTreeNode) (depth : Z) :
  lines (_format_comment_tree node depth) <> [].
Proof.
  intros E. apply lines_nil in E.
  pose proof (_format_comment_tree_ends node depth) as H.
  rewrite E in H. discriminate.
Qed.

Lemma plain_tree_node (comment : Comment.t) (replies : list CommentTreeNode) :
  plain_tree (Node comment replies) = true ->
  no_newline (_format_date (Comment.created_ut comment)) = true
  /\ no_newline (py_or (Comment.author_display_name comment) "[deleted]") = true
  /\ no_newline (Comment.body comment) = true
  /\ Forall (fun child => plain_tree child = true) replies.
Proof.
  cbn [plain_tree]. rewrite !andb_true_iff, forallb_forall, Forall_forall.
  tauto.
Qed.

(** X5. When no date, author or body of a tree holds a line feed, its
    rendering has two lines per comment of the tree, at every depth. *)
Theorem two_lines_per_comment (node : CommentTreeNode) :
  plain_tree node = true ->
  forall depth,
    List.length (lines (_format_comment_tree node depth))
    = (2 * count_nodes node)%nat.
Proof.
  induction node as [comment replies IH] using CommentTreeNode_forall_ind.
  intros Hplain depth.
  apply plain_tree_node in Hplain as (Hdate & Hauthor & Hbody & Hreplies).
  rewrite lines_format_node by assumption.
  cbn [List.length count_nodes]. rewrite length_concat, map_map.
  rewrite (map_ext_in _ (fun child => (2 * count_nodes child)%nat)).
  - rewrite <- (Permutation_list_sum
                  (Permutation_map _ (sorted_reverse_perm reply_key replies))).
    assert (E : forall l : list CommentTreeNode,
               list_sum (map (fun child => (2 * count_nodes child)%nat) l)
               = (2 * list_sum (map count_nodes l))%nat).
    { induction l as [|x l IHl]; simpl in *; lia. }
    rewrite E. lia.
  - intros child Hin.
    apply (Permutation_in _
             (Permutation_sym (sorted_reverse_perm reply_key replies))) in Hin.
    rewrite quote_first_length by apply lines_format_nonempty.
    rewrite Forall_forall in IH, Hreplies. now apply IH, Hreplies.
Qed.

(** X6. When no date, author or body of a tree holds a line feed, every line
    of its rendering at depth [d] starts with the indentation of [d]: four
    spaces times [d]. *)
Theorem every_line_indented (node : CommentTreeNode) :
  plain_tree node = true ->
  forall depth,
    Forall (fun line => String.prefix (str_mul "    " depth) line = true)
      (lines (_format_comment_tree node depth)).
Proof.
  induction node as [comment replies IH] using CommentTreeNode_forall_ind.
  intros Hplain depth.
  apply plain_tree_node in Hplain as (Hdate & Hauthor & Hbody & Hreplies).
  rewrite lines_format_node by assumption.
  constructor; [apply prefix_split; eauto|].
  constructor; [apply prefix_split; eauto|].
  apply Forall_concat, Forall_map, sorted_reverse_Forall.
  rewrite Forall_forall in IH, Hreplies. apply Forall_forall.
  intros child Hin. specialize (IH child Hin (Hreplies child Hin) (depth + 1)).
  destruct (lines (_format_comment_tree child (depth + 1))) as [|first rest];
    cbn [quote_first].
  - constructor; [|constructor]. apply prefix_split. eauto.
  - inversion IH as [|? ? _ Hrest]; subst. constructor.
    + apply prefix_split. exists ("> " ++ first). apply app_assoc_str.
    + eapply Forall_impl; [|exact Hrest]. intros line Hline.
      exact (prefix_trans _ _ _ (indent_prefix_succ depth) Hline).
Qed.
End RenderingLines.

(** ** The order of the replies *)

Lemma sorted_reverse_unique {A : Type} (key : A -> Z) (l1 : list A) :
  forall l2,
    StronglySorted (descending key) l1 ->
    StronglySorted (descending key) l2 ->
    Permutation l1 l2 ->
    NoDup (map key l1) ->
    l1 = l2.
Proof.
  induction l1 as [|x l1 IH]; intros l2 S1 S2 Hperm Hnodup.
  - apply Permutation_nil in Hperm. now subst.
  - destruct l2 as [|y l2];
      [apply Permutation_sym, Permutation_nil in Hperm; discriminate|].
    inversion S1 as [|? ? S1' Hx]; subst. inversion S2 as [|? ? S2' Hy]; subst.
    inversion Hnodup as [|? ? Hnotin Hnodup']; subst.
    rewrite Forall_forall in Hx, Hy.
    assert (E : x = y).
    { destruct (Permutation_in _ (Permutation_sym Hperm) (in_eq y l2))
        as [E | Hin1]; [exact E|].
      destruct (Permutation_in _ Hperm (in_eq x l1)) as [E | Hin2];
        [now symmetry|].
      exfalso. apply Hnotin.
      specialize (Hx _ Hin1). specialize (Hy _ Hin2). unfold descending in *.
      replace (key x) with (key y) by lia. now apply in_map. }
    subst y. f_equal. apply IH; try assumption.
    now apply Permutation_cons_inv in Hperm.
Qed.

Lemma sorted_reverse_presorted {A : Type} (key : A -> Z) (l : list A) :
  Sorted (descending key) l -> sorted_reverse key l = l.
Proof.
  induction 1 as [|x l Hl IH Hhd]; [reflexivity|].
  simpl. rewrite IH. destruct Hhd as [|y l' Hxy]; [reflexivity|].
  simpl. unfold descending in Hxy.
  destruct (Z.leb_spec (key y) (key x)); [reflexivity | lia].
Qed.

(** X7. When the replies of a node have pairwise distinct [created_ut], the
    rendering does not depend on the order the replies come in: any
    rearrangement of them gives the same text. *)
Theorem reply_order_irrelevant `{DT : Datetime} (comment : Comment.t)
  (replies replies' : list CommentTreeNode) (depth : Z) :
  Permutation replies replies' ->
  NoDup (map reply_key replies) ->
  _format_comment_tree (Node comment replies) depth
  = _format_comment_tree (Node comment replies') depth.
Proof.
  intros Hperm Hnodup. rewrite !_format_comment_tree_blocks.
  assert (E : sorted_reverse reply_key replies
              = sorted_reverse reply_key replies').
  { apply (sorted_reverse_unique reply_key).
    - apply sorted_reverse_sorted.
    - apply sorted_reverse_sorted.
    - rewrite <- !sorted_reverse_perm. exact Hperm.
    - eapply Permutation_NoDup; [|exact Hnodup].
      apply Permutation_map, sorted_reverse_perm. }
  now rewrite E.
Qed.

(** X8. Replies that are handed over newest first already are rendered in
    the order they have: sorting the replies beforehand, as the formatter
    does, changes nothing of the text. *)
Theorem presorted_replies_unchanged `{DT : Datetime} (comment : Comment.t)
  (replies : list CommentTreeNode) (depth : Z) :
  _format_comment_tree (Node comment (sorted_reverse reply_key replies)) depth
  = _format_comment_tree (Node comment replies) depth.
Proof.
  rewrite !_format_comment_tree_blocks.
  rewrite (sorted_reverse_presorted reply_key (sorted_reverse reply_key replies))
    by apply StronglySorted_Sorted, sorted_reverse_sorted.
  reflexivity.
Qed.

(** ** The layout of the comments *)

Lemma lines_newline (s : string) : lines (NL ++ s) = "" :: lines s.
Proof. reflexivity. Qed.

Lemma lines_str_join (b : string) (bs : list string) :
  Forall (fun b => ends_with_newline b = true) (b :: bs) ->
  lines (str_join NL (b :: bs))
  = (lines b ++ flat_map (fun b' => "" :: lines b') bs)%list.
Proof.
  revert b. induction bs as [|b' bs IH]; intros b Hall.
  - simpl. now rewrite app_nil_r.
  - inversion Hall as [|? ? Hb Hrest]; subst.
    change (str_join NL (b :: b' :: bs))
      with (b ++ NL ++ str_join NL (b' :: bs)).
    rewrite lines_app, lines_newline, IH by assumption. reflexivity.
Qed.

(** X9. In the comments section of the URL tool the heading is followed at
    once by the first top-level thread, and every further thread is set off
    by one empty line. *)
Theorem post_from_url_comment_lines `{DT : Datetime} {World : Type}
  (env : Env World) (reddit_url post_id : string) (w w1 w2 : World)
  (submission : Submission.t) (comment_forest : Forest.t)
  (first : CommentTreeNode) (others : list CommentTreeNode) :
  re_search_comments reddit_url = Some post_id ->
  call env (submission_fetch post_id) w = (inr submission, w1) ->
  call env (comment_tree_fetch post_id "top" None None)
    (emit env INFO [Lit "Fetched submission: "; Obj submission] w1)
  = (inr comment_forest, w2) ->
  Forest.children comment_forest = first :: others ->
  exists sections comments_section,
    fst (run env (fetch_reddit_post_from_url reddit_url) w)
    = Parts (sections ++ [comments_section])%list
    /\ List.length sections = 8%nat
    /\ lines comments_section
       = ("Comments:"
            :: lines (_format_comment_tree first 0)
            ++ flat_map
                 (fun node => "" :: lines (_format_comment_tree node 0))
                 others)%list.
Proof.
  intros Hid Hsub Hcom Hchildren.
  unfold fetch_reddit_post_from_url, try_except, bind_try, await, logging, ret.
  rewrite Hid. cbn [bind run]. rewrite Hsub. cbn [bind run]. rewrite Hcom.
  cbn [bind run fst]. rewrite Hchildren.
  rewrite (fold_left_snoc (fun node => _format_comment_tree node 0)).
  cbn [app map].
  exists [ "Title: " ++ Submission.title submission;
           "Score: " ++ str_int (Submission.score submission);
           "Author: "
             ++ py_or (Submission.author_display_name submission) "[deleted]";
           "Subreddit: " ++ Submission.subreddit_name submission;
           "Type: " ++ _get_post_type submission;
           "Content: " ++ str_optional (_get_content submission);
           "Link: https://reddit.com" ++ Submission.permalink submission;
           "Number of Comments: "
             ++ str_int (Submission.comment_count submission) ].
  eexists. split; [reflexivity|]. split; [reflexivity|].
  change ("Comments:" ++ NL ++ ?s) with (("Comments:" ++ NL) ++ s).
  rewrite lines_app by reflexivity.
  change (_format_comment_tree first 0
            :: map (fun node => _format_comment_tree node 0) others)
    with (map (fun node => _format_comment_tree node 0) (first :: others)).
  cbn [map]. rewrite lines_str_join.
  - rewrite flat_map_concat_map, map_map, <- flat_map_concat_map. reflexivity.
  - change (Forall (fun b => ends_with_newline b = true)
              (map (fun node => _format_comment_tree node 0) (first :: others))).
    apply Forall_map, Forall_forall. intros node _.
    apply _format_comment_tree_ends.
Qed.

(** X10. The text of the post-content tool reads, after the five lines of
    the post: an empty line and [No comments found.] for a forest without
    comments; otherwise an empty line, the heading, and every top-level
    thread behind an empty line of its own. *)
Theorem post_content_lines `{DT : Datetime} {World : Type}
  (env : Env World) (post_id : string) (comment_limit comment_depth : Z)
  (w w1 w2 : World) (submission : Submission.t) (comments : Forest.t) :
  call env (submission_fetch post_id) w = (inr submission, w1) ->
  call env
    (comment_tree_fetch post_id "top" (Some comment_limit) (Some comment_depth))
    w1 = (inr comments, w2) ->
  let head :=
    "Title: " ++ Submission.title submission ++ NL
    ++ "Score: " ++ str_int (Submission.score submission) ++ NL
    ++ "Author: "
    ++ py_or (Submission.author_display_name submission) "[deleted]" ++ NL
    ++ "Type: " ++ _get_post_type submission ++ NL
    ++ "Content: " ++ str_optional (_get_content submission) ++ NL in
  lines
    (fst (run env
            (fetch_reddit_post_content post_id comment_limit comment_depth) w))
  = (lines head
       ++ match Forest.children comments with
          | [] => [""; "No comments found."]
          | top =>
              "" :: "Comments:"
                 :: flat_map
                      (fun node => "" :: lines (_format_comment_tree node 0))
                      top
          end)%list.
Proof.
  intros Hsub Hcom head.
  assert (Hhead : ends_with_newline head = true).
  { unfold head.
    repeat match goal with
           | |- ends_with_newline (_ ++ _) = true => apply ends_with_newline_app
           end.
    reflexivity. }
  unfold fetch_reddit_post_content, try_except, bind_try, await, ret.
  cbn [bind run]. rewrite Hsub. cbn [bind run]. rewrite Hcom.
  cbn [bind run fst]. fold head.
  destruct (Forest.children comments) as [|first others].
  - now rewrite lines_app.
  - rewrite (fold_left_append
               (fun comment => NL ++ _format_comment_tree comment 0)).
    rewrite app_assoc_str, lines_app by assumption. f_equal.
    change ((NL ++ "Comments:" ++ NL) ++ ?s)
      with (NL ++ ("Comments:" ++ NL) ++ s).
    rewrite lines_newline, lines_app by reflexivity.
    change (lines ("Comments:" ++ NL)) with ["Comments:"]. cbn [app].
    do 2 f_equal. rewrite lines_str_concat.
    + rewrite map_map, flat_map_concat_map. reflexivity.
    + apply Forall_map, Forall_forall. intros node _.
      apply ends_with_newline_app, _format_comment_tree_ends.
Qed.

(** ** URLs of Reddit's own form *)

Lemma re_search_comments_step (c : ascii) (s : string) :
  re_match_comments (String c s) = None ->
  re_search_comments (String c s) = re_search_comments s.
Proof. intros H. now rewrite re_search_comments_eq, H. Qed.

Lemma re_search_comments_skip (r s : string) :
  no_slash r = true -> re_search_comments (r ++ s) = re_search_comments s.
Proof.
  induction r as [|c r IH]; intros Hr; [reflexivity|].
  simpl in Hr. apply andb_prop in Hr as [Hc Hr].
  apply negb_true_iff in Hc.
  change (String c r ++ s) with (String c (r ++ s)).
  rewrite re_search_comments_step; [now apply IH|].
  unfold re_match_comments. cbn [strip_prefix].
  rewrite Ascii.eqb_sym. fold slash. now rewrite Hc.
Qed.

Lemma first_slash_unique (a : string) :
  forall b x y,
    no_slash a = true -> no_slash b = true ->
    a ++ String slash x = b ++ String slash y -> a = b.
Proof.
  induction a as [|c a IH]; intros [|d b] x y Ha Hb E; simpl in *.
  - reflexivity.
  - injection E as <- _. discriminate.
  - injection E as -> _. discriminate.
  - injection E as <- E. f_equal.
    apply andb_prop in Ha as [_ Ha]. apply andb_prop in Hb as [_ Hb].
    exact (IH _ _ _ Ha Hb E).
Qed.

Lemma re_match_comments_subreddit (r t : string) :
  no_slash r = true -> r <> "comments" ->
  re_match_comments (String slash (r ++ String slash t)) = None.
Proof.
  intros Hr Hne. unfold re_match_comments.
  destruct (strip_prefix "/comments/" (String slash (r ++ String slash t)))
    as [rest|] eqn:E; [|reflexivity].
  apply strip_prefix_some in E.
  change ("/comments/" ++ rest)
    with (String slash ("comments" ++ String slash rest)) in E.
  injection E as E. exfalso. apply Hne.
  apply (first_slash_unique r "comments" t rest Hr eq_refl E).
Qed.

(** X11. A URL of the form [https://www.reddit.com/r/<subreddit>/comments/<id>/<slug>]
    resolves to [<id>], whatever the slug, for every subreddit but one: in
    the subreddit named [comments] the segment [/comments/] is found one
    step early and the URL resolves to [comments]. *)
Theorem subreddit_url_resolves (subreddit post_id slug : string) :
  no_slash subreddit = true ->
  no_slash post_id = true ->
  post_id <> "" ->
  re_search_comments
    ("https://www.reddit.com/r/" ++ subreddit ++ "/comments/" ++ post_id
       ++ "/" ++ slug)
  = Some (if String.eqb subreddit "comments" then "comments" else post_id).
Proof.
  intros Hr Hid Hne.
  destruct (String.eqb_spec subreddit "comments") as [->|Hsub];
    [reflexivity|].
  change ("https://www.reddit.com/r/" ++ subreddit ++ "/comments/" ++ post_id
            ++ "/" ++ slug)
    with ("https://www.reddit.com/r"
            ++ String slash
                 (subreddit
                    ++ String slash ("comments/" ++ post_id ++ "/" ++ slug))).
  cbn [append].
  do 24 (rewrite re_search_comments_step by reflexivity).
  rewrite re_search_comments_step
    by (apply re_match_comments_subreddit; assumption).
  rewrite re_search_comments_skip by assumption.
  rewrite re_search_comments_eq.
  match goal with
  | |- context [re_match_comments ?q] =>
      assert (E : re_match_comments q = Some post_id)
  end.
  { apply re_match_comments_spec. exists (String slash slug).
    repeat split; try assumption. right. now exists slug. }
  now rewrite E.
Qed.

(** ** The credentials *)

Lemma truthy_some (x : option string) :
  truthy x = true -> exists s, x = Some s /\ s <> "".
Proof.
  destruct x as [[|c s]|]; try discriminate.
  intros _. exists (String c s). split; [reflexivity | discriminate].
Qed.

(** X12. The client is built from the variables that are set and not
    empty, in the order id, secret, token, and from nothing else: for each of
    the eight ways the three can be set or missing the arguments are the set
    ones in that order, so a missing secret moves the token into the second
    place; no argument is ever an empty string. *)
Theorem creds_are_the_set_variables
  (REDDIT_CLIENT_ID REDDIT_CLIENT_SECRET REDDIT_REFRESH_TOKEN : option string) :
  let creds :=
    CREDS REDDIT_CLIENT_ID REDDIT_CLIENT_SECRET REDDIT_REFRESH_TOKEN in
  creds
  = match truthy REDDIT_CLIENT_ID, truthy REDDIT_CLIENT_SECRET,
          truthy REDDIT_REFRESH_TOKEN with
    | true, true, true =>
        [REDDIT_CLIENT_ID; REDDIT_CLIENT_SECRET; REDDIT_REFRESH_TOKEN]
    | true, true, false => [REDDIT_CLIENT_ID; REDDIT_CLIENT_SECRET]
    | true, false, true => [REDDIT_CLIENT_ID; REDDIT_REFRESH_TOKEN]
    | true, false, false => [REDDIT_CLIENT_ID]
    | false, true, true => [REDDIT_CLIENT_SECRET; REDDIT_REFRESH_TOKEN]
    | false, true, false => [REDDIT_CLIENT_SECRET]
    | false, false, true => [REDDIT_REFRESH_TOKEN]
    | false, false, false => []
    end
  /\ Forall (fun x => exists s, x = Some s /\ s <> "") creds
  /\ (forall x,
        In x creds <->
        In x [REDDIT_CLIENT_ID; REDDIT_CLIENT_SECRET; REDDIT_REFRESH_TOKEN]
        /\ truthy x = true).
Proof.
  intros creds. split; [|split].
  - unfold creds, CREDS. cbn [filter].
    destruct (truthy REDDIT_CLIENT_ID), (truthy REDDIT_CLIENT_SECRET),
      (truthy REDDIT_REFRESH_TOKEN); reflexivity.
  - apply Forall_forall. intros x Hx. apply filter_In in Hx as [_ Hx].
    now apply truthy_some.
  - intros x. apply filter_In.
Qed.

(** ** Bodies of several lines *)

Lemma lines_indented (p s : string) :
  no_newline p = true -> s <> "" -> lines (p ++ s) = quote_first p (lines s).
Proof.
  intros Hp Hs. destruct p as [|c p].
  - simpl append. destruct (lines s) as [|l ls] eqn:E; [|reflexivity].
    now apply lines_nil in E.
  - apply lines_prefix; [assumption | discriminate].
Qed.

(** X13. Of a body of several lines only the first line is indented: when
    the date and the author hold no line feed, the rendering of a node is its
    header line, then the lines of the body as they are, with the
    indentation put before the first of them, then the blocks of the
    replies. *)
Theorem multiline_body_indented_once `{DT : Datetime} (comment : Comment.t)
  (replies : list CommentTreeNode) (depth : Z) :
  no_newline (_format_date (Comment.created_ut comment)) = true ->
  no_newline (py_or (Comment.author_display_name comment) "[deleted]") = true ->
  lines (_format_comment_tree (Node comment replies) depth)
  = (str_mul "    " depth ++ _format_date (Comment.created_ut comment)
       ++ " [" ++ py_or (Comment.author_display_name comment) "[deleted]"
       ++ "] Score: " ++ str_int (Comment.score comment))
    :: List.app
         (quote_first (str_mul "    " depth)
            (lines (Comment.body comment ++ NL)))
         (List.concat
            (map (fun child_node => lines (child_block depth child_node))
               (sorted_reverse reply_key replies))).
Proof.
  intros Hdate Hauthor.
  rewrite _format_comment_tree_blocks, header_line_eq.
  rewrite (lines_app (_ ++ NL)) by (now apply ends_with_newline_app).
  rewrite lines_single
    by (rewrite !no_newline_app, no_newline_indent, Hdate, Hauthor,
          str_int_no_newline; reflexivity).
  rewrite lines_app by apply body_line_ends.
  cbn [app]. f_equal. f_equal.
  - unfold body_line. apply lines_indented; [apply no_newline_indent|].
    intros E. apply app_eq_nil_str in E as [_ E]. discriminate.
  - rewrite lines_str_concat, map_map; [reflexivity|].
    apply Forall_map, Forall_forall. intros child _.
    apply ends_with_newline_app, _format_comment_tree_ends.
Qed.

(** ** The further properties at concrete inputs *)

Lemma post_from_url_sections_witness :
  let url :=
    "https://www.reddit.com/r/learnpython/comments/12345ab/my_first_post/" in
  fst (run SampleWorld.env (@fetch_reddit_post_from_url UTC_Datetime url) 0%nat)
  = Parts
      [ "Title: My first Python project";
        "Score: 42";
        "Author: alice";
        "Subreddit: learnpython";
        "Type: text";
        "Content: Hello";
        "Link: https://reddit.com/r/learnpython/comments/12345ab/my_first_post/";
        "Number of Comments: 3";
        "Comments:" ++ NL ++ @_format_comment_tree UTC_Datetime Sample.thread 0 ].
Proof.
  intros url.
  exact (f_equal fst
           (post_from_url_sections (DT := UTC_Datetime) SampleWorld.env url
              "12345ab" 0%nat 1%nat 2%nat SampleWorld.submission
              {| Forest.children := [Sample.thread] |}
              eq_refl eq_refl eq_refl)).
Defined.

Lemma hot_threads_listing_witness :
  fst (run SampleLink.env (fetch_reddit_hot_threads "python" 2) 0%nat)
  = "Title: My first Python project" ++ NL
    ++ "Score: 42" ++ NL
    ++ "Comments: 3" ++ NL
    ++ "Author: alice" ++ NL
    ++ "Type: text" ++ NL
    ++ "Content: Hello" ++ NL
    ++ "Link: https://reddit.com/r/learnpython/comments/12345ab/my_first_post/"
    ++ NL ++ "---"
    ++ NL ++ NL
    ++ "Title: Release notes" ++ NL
    ++ "Score: 7" ++ NL
    ++ "Comments: 0" ++ NL
    ++ "Author: carol" ++ NL
    ++ "Type: link" ++ NL
    ++ "Content: /r/python/comments/abc123/release_notes/" ++ NL
    ++ "Link: https://reddit.com/r/python/comments/abc123/release_notes/"
    ++ NL ++ "---".
Proof.
  exact (f_equal fst
           (proj1 (hot_threads_listing SampleLink.env "python" 2 0%nat 1%nat
                     [SampleWorld.submission; SampleLink.post] eq_refl))).
Defined.

Lemma invocation_requests_witness :
  let i := @invoke_post_content "12345ab" 20 3 in
  raised SampleWorld.env (@invoke UTC_Datetime i) 0%nat = []
  /\ requests SampleWorld.env (@invoke UTC_Datetime i) 0%nat
     = [request_submission "12345ab";
        request_comment_tree "12345ab" "top" (Some 20) (Some 3)].
Proof.
  intros i. split; [reflexivity|].
  exact (proj1 (proj2 (invocation_requests (DT := UTC_Datetime)
                         SampleWorld.env i 0%nat)) eq_refl).
Defined.

Lemma two_lines_per_comment_witness :
  @plain_tree UTC_Datetime Sample.three = true
  /\ List.length (lines (@_format_comment_tree UTC_Datetime Sample.three 0))
     = 10%nat.
Proof.
  split; [reflexivity|].
  exact (two_lines_per_comment (DT := UTC_Datetime) Sample.three eq_refl 0).
Defined.

Lemma every_line_indented_witness :
  @plain_tree UTC_Datetime Sample.three = true
  /\ Forall (fun line => String.prefix "    " line = true)
       (lines (@_format_comment_tree UTC_Datetime Sample.three 1)).
Proof.
  split; [reflexivity|].
  exact (every_line_indented (DT := UTC_Datetime) Sample.three eq_refl 1).
Defined.

Lemma reply_order_irrelevant_witness :
  let post := comment (Some "alice") 50 5 "post" in
  Permutation [Sample.oldest; Sample.newest; Sample.middle]
    [Sample.middle; Sample.oldest; Sample.newest]
  /\ NoDup (map reply_key [Sample.oldest; Sample.newest; Sample.middle])
  /\ @_format_comment_tree UTC_Datetime
       (Node post [Sample.oldest; Sample.newest; Sample.middle]) 0
     = @_format_comment_tree UTC_Datetime
         (Node post [Sample.middle; Sample.oldest; Sample.newest]) 0.
Proof.
  intros post.
  assert (Hperm : Permutation [Sample.oldest; Sample.newest; Sample.middle]
                    [Sample.middle; Sample.oldest; Sample.newest]).
  { exact (perm_trans
             (perm_skip Sample.oldest (perm_swap Sample.middle Sample.newest []))
             (perm_swap Sample.middle Sample.oldest [Sample.newest])). }
  assert (Hnodup : NoDup (map reply_key
                            [Sample.oldest; Sample.newest; Sample.middle])).
  { repeat constructor; simpl; intuition discriminate. }
  split; [exact Hperm|]. split; [exact Hnodup|].
  exact (reply_order_irrelevant (DT := UTC_Datetime) post _ _ 0 Hperm Hnodup).
Defined.

Lemma post_from_url_comment_lines_witness :
  let url :=
    "https://www.reddit.com/r/learnpython/comments/12345ab/my_first_post/" in
  exists sections comments_section,
    fst (run SampleWorld.env (@fetch_reddit_post_from_url UTC_Datetime url) 0%nat)
    = Parts (sections ++ [comments_section])%list
    /\ List.length sections = 8%nat
    /\ lines comments_section
       = [ "Comments:";
           "1970-01-01 00:01:40 UTC [alice] Score: 5";
           "post";
           ">     1970-01-01 00:03:20 UTC [bob] Score: 3";
           "    reply" ].
Proof.
  intros url.
  exact (post_from_url_comment_lines (DT := UTC_Datetime) SampleWorld.env url
           "12345ab" 0%nat 1%nat 2%nat SampleWorld.submission
           {| Forest.children := [Sample.thread] |} Sample.thread []
           eq_refl eq_refl eq_refl eq_refl).
Defined.

Lemma post_content_lines_witness :
  lines
    (fst (run SampleWorld.env
            (@fetch_reddit_post_content UTC_Datetime "empty" 20 3) 0%nat))
  = [ "Title: My first Python project";
      "Score: 42";
      "Author: alice";
      "Type: text";
      "Content: Hello";
      "";
      "No comments found." ].
Proof.
  exact (post_content_lines (DT := UTC_Datetime) SampleWorld.env "empty" 20 3
           0%nat 1%nat 2%nat SampleWorld.submission {| Forest.children := [] |}
           eq_refl eq_refl).
Defined.

Lemma subreddit_url_resolves_witness :
  re_search_comments
    "https://www.reddit.com/r/learnpython/comments/12345ab/my_first_post/"
  = Some "12345ab"
  /\ re_search_comments
       "https://www.reddit.com/r/comments/comments/12345ab/my_first_post/"
     = Some "comments".
Proof.
  split.
  - exact (subreddit_url_resolves "learnpython" "12345ab" "my_first_post/"
             eq_refl eq_refl (fun E => eq_ind "12345ab"%string
                (fun s => match s with "" => False | _ => True end) I _ E)).
  - exact (subreddit_url_resolves "comments" "12345ab" "my_first_post/"
             eq_refl eq_refl (fun E => eq_ind "12345ab"%string
                (fun s => match s with "" => False | _ => True end) I _ E)).
Defined.

Lemma multiline_body_indented_once_witness :
  lines (@_format_comment_tree UTC_Datetime
           (leaf (Some "bob") 200 3 ("one" ++ NL ++ "two")) 1)
  = [ "    1970-01-01 00:03:20 UTC [bob] Score: 3"; "    one"; "two" ].
Proof.
  exact (multiline_body_indented_once (DT := UTC_Datetime)
           (comment (Some "bob") 200 3 ("one" ++ NL ++ "two")) [] 1
           eq_refl eq_refl).
Defined.

(** ** The formatter on a heap of objects *)

Lemma all2_Forall2 {A B : Type} (P : A -> B -> Prop) (ts : list A) :
  forall rs,
    (fix all (ts : list A) (rs : list B) : Prop :=
       match ts, rs with
       | [], [] => True
       | t' :: ts', r' :: rs' => P t' r' /\ all ts' rs'
       | _, _ => False
       end) ts rs
    <-> Forall2 P ts rs.
Proof.
  induction ts as [|t ts IH]; intros [|r rs].
  - split; constructor.
  - split; [intros [] | intros H; inversion H].
  - split; [intros [] | intros H; inversion H].
  - split.
    + intros [Ht Hts]. constructor; [exact Ht | now apply IH].
    + intros H. inversion H; subst. split; [assumption | now apply IH].
Qed.

Lemma represents_node (h : Store.heap) (value : Comment.t)
  (replies : list CommentTreeNode) (r : Store.ref) :
  Store.represents h (Node value replies) r
  <-> exists l items,
        nth_error h r = Some (Store.node_object value l)
        /\ nth_error h l = Some (Store.list_object items)
        /\ Forall2 (Store.represents h) replies items.
Proof.
  split; intros (l & items & Hr & Hl & Hall); exists l, items;
    (split; [exact Hr|]); (split; [exact Hl|]);
    apply (all2_Forall2 (Store.represents h)); exact Hall.
Qed.

Lemma nth_error_ext {A : Type} (h extra : list A) (n : nat) (a : A) :
  nth_error h n = Some a -> nth_error (h ++ extra)%list n = Some a.
Proof.
  intros H. rewrite nth_error_app1; [exact H|].
  apply nth_error_Some. congruence.
Qed.

Lemma Forall2_impl_Forall {A B : Type} (P Q : A -> B -> Prop)
  (ts : list A) (rs : list B) :
  Forall (fun t => forall r, P t r -> Q t r) ts ->
  Forall2 P ts rs -> Forall2 Q ts rs.
Proof.
  intros Hall H. induction H as [|t r ts rs Htr _ IH]; constructor.
  - inversion Hall; subst. auto.
  - inversion Hall; subst. auto.
Qed.

(** Objects added to the heap leave a tree what it is. *)
Lemma represents_ext (h extra : Store.heap) (t : CommentTreeNode) :
  forall r, Store.represents h t r -> Store.represents (h ++ extra)%list t r.
Proof.
  induction t as [value replies IH] using CommentTreeNode_forall_ind.
  intros r H. apply represents_node in H as (l & items & Hr & Hl & Hall).
  apply represents_node. exists l, items.
  split; [now apply nth_error_ext|]. split; [now apply nth_error_ext|].
  exact (Forall2_impl_Forall _ _ _ _ IH Hall).
Qed.

Lemma Forall2_combine {A B : Type} (P : A -> B -> Prop)
  (ts : list A) (rs : list B) :
  Forall2 P ts rs ->
  map fst (combine ts rs) = ts
  /\ map snd (combine ts rs) = rs
  /\ Forall (fun p => P (fst p) (snd p)) (combine ts rs).
Proof.
  induction 1 as [|t r ts rs Htr _ (IH1 & IH2 & IH3)]; simpl.
  - repeat split. constructor.
  - rewrite IH1, IH2. repeat split. now constructor.
Qed.

Lemma get_value_represents (h : Store.heap) (t : CommentTreeNode)
  (r : Store.ref) :
  Store.represents h t r -> Store.get_value r h = Some (value t, h).
Proof.
  destruct t as [value replies]. intros H.
  apply represents_node in H as (l & items & Hr & _).
  unfold Store.get_value. now rewrite Hr.
Qed.

Lemma keyed_represents (h : Store.heap) (replies : list CommentTreeNode)
  (items : list Store.ref) :
  Forall2 (Store.represents h) replies items ->
  Store.keyed items h
  = Some (map (fun p => (reply_key (fst p), snd p)) (combine replies items), h).
Proof.
  induction 1 as [|t r ts rs Htr _ IH]; [reflexivity|].
  cbn [Store.keyed combine map]. unfold Store.bind.
  rewrite (get_value_represents _ _ _ Htr), IH. reflexivity.
Qed.

(** Sorting the references by the keys read from the heap is sorting the
    children they stand for. *)
Lemma sorted_zipped (replies : list CommentTreeNode) (items : list Store.ref) :
  let zipped := combine replies items in
  let sorted_zipped := sorted_reverse (fun p => reply_key (fst p)) zipped in
  map fst (combine replies items) = replies ->
  map snd
    (sorted_reverse fst (map (fun p => (reply_key (fst p), snd p)) zipped))
  = map snd sorted_zipped
  /\ sorted_reverse reply_key replies = map fst sorted_zipped.
Proof.
  intros zipped sorted_zipped Hfst. split.
  - rewrite (sorted_reverse_map (fun p => reply_key (fst p)) fst) by reflexivity.
    now rewrite map_map.
  - rewrite <- Hfst at 1.
    now rewrite (sorted_reverse_map (fun p => reply_key (fst p)) reply_key).
Qed.

Section StoreFacts.
Context `{DT : Datetime}.

Lemma for_loop_children (fuel : nat) (depth : Z)
  (pairs : list (CommentTreeNode * Store.ref)) :
  Forall (fun p => rendered_right fuel (fst p)) pairs ->
  forall h result,
    Forall (fun p => Store.represents h (fst p) (snd p)) pairs ->
    exists extra,
      Store.for_loop
        (fun result child_node =>
           Store.bind
             (Store._format_comment_tree fuel child_node (depth + 1))
             (fun rendered =>
                Store.ret
                  (result ++ (str_mul "    " depth ++ "> ") ++ rendered)))
        (map snd pairs) result h
      = Some (result ++ str_concat (map (child_block depth) (map fst pairs)),
              (h ++ extra)%list).
Proof.
  induction 1 as [|[t r] pairs Ht _ IH]; intros h result Hrep.
  - exists []. cbn. now rewrite app_nil_r_str, app_nil_r.
  - inversion Hrep as [|? ? Hhead Htail]; subst. cbn [fst snd] in *.
    destruct (Ht h r (depth + 1) Hhead) as [e1 E1].
    destruct (IH (h ++ e1)%list
                (result ++ (str_mul "    " depth ++ "> ")
                   ++ _format_comment_tree t (depth + 1)))
      as [e2 E2].
    { eapply Forall_impl; [|exact Htail].
      intros p Hp. now apply represents_ext. }
    exists (e1 ++ e2)%list.
    cbn [map Store.for_loop fst snd]. unfold Store.bind at 1 2.
    rewrite E1. unfold Store.ret at 1. rewrite E2.
    cbn [str_concat fold_right]. unfold child_block at 2.
    now rewrite !app_assoc_str, List.app_assoc.
Qed.

Lemma height_child (replies : list CommentTreeNode) (child : CommentTreeNode) :
  In child replies -> (height child <= list_max (map height replies))%nat.
Proof.
  intros Hin.
  assert (H : Forall (fun k => (k <= list_max (map height replies))%nat)
                (map height replies)) by now apply list_max_le.
  rewrite Forall_forall in H. apply H. now apply in_map.
Qed.

(** With fuel for the height of the tree, the formatter on the heap returns
    what the pure formatter returns and only adds objects to the heap. *)
Lemma store_format_pure (t : CommentTreeNode) :
  forall fuel, (height t < fuel)%nat -> rendered_right fuel t.
Proof.
  induction t as [value replies IH] using CommentTreeNode_forall_ind.
  intros [|fuel] Hfuel h r depth Hrep; [inversion Hfuel|].
  cbn [height] in Hfuel.
  apply represents_node in Hrep as (l & items & Hr & Hl & Hall).
  destruct (Forall2_combine _ _ _ Hall) as (Hfst & Hsnd & Hzip).
  destruct (sorted_zipped replies items Hfst) as [Hrefs Hsorted].
  set (pairs := sorted_reverse (fun p => reply_key (fst p))
                  (combine replies items)) in *.
  set (h1 := (h ++ [Store.list_object (map snd pairs)])%list).
  destruct (for_loop_children fuel depth pairs) with
    (h := h1) (result := ("" ++ header_line value depth) ++ body_line value depth)
    as [extra E].
  - apply Forall_map with (f := fst) (P := rendered_right fuel).
    rewrite <- Hsorted. apply sorted_reverse_Forall.
    rewrite Forall_forall in IH. apply Forall_forall. intros child Hin.
    apply IH; [exact Hin|]. pose proof (height_child _ _ Hin). lia.
  - unfold pairs. apply sorted_reverse_Forall.
    eapply Forall_impl; [|exact Hzip].
    intros p Hp. now apply represents_ext.
  - exists ([Store.list_object (map snd pairs)] ++ extra)%list.
    cbn [Store._format_comment_tree]. unfold Store.bind at 1.
    unfold Store.get_value. rewrite Hr.
    unfold Store.bind at 1. unfold Store.get_children. rewrite Hr.
    unfold Store.bind at 1. unfold Store.sorted, Store.bind at 1.
    unfold Store.get_items at 1. rewrite Hl.
    unfold Store.bind at 1. rewrite (keyed_represents _ _ _ Hall).
    unfold Store.new_list. rewrite Hrefs. fold h1.
    unfold Store.bind at 1. unfold Store.get_items.
    replace (nth_error h1 (List.length h))
      with (Some (Store.list_object (map snd pairs)))
      by (unfold h1; now rewrite nth_error_app2, Nat.sub_diag by lia).
    rewrite E. unfold h1. rewrite <- List.app_assoc.
    rewrite _format_comment_tree_blocks, Hsorted.
    cbn [append]. now rewrite app_assoc_str.
Qed.
End StoreFacts.

(** C9. Two invocations of the formatter, one after the other, on a tree of
    objects that nothing else touches return the same string: the first
    leaves every object of the heap as it was, the tree with it, and adds
    only the lists it sorted; the string is the one the tree, the depth and
    the date library determine, whatever else the heap holds. *)
Theorem format_twice_same_output `{DT : Datetime} (h : Store.heap)
  (t : CommentTreeNode) (r : Store.ref) (depth : Z) (fuel : nat) :
  Store.represents h t r ->
  (height t < fuel)%nat ->
  exists out h1 h2,
    Store._format_comment_tree fuel r depth h = Some (out, h1)
    /\ Store._format_comment_tree fuel r depth h1 = Some (out, h2)
    /\ out = _format_comment_tree t depth
    /\ (exists fresh, h1 = (h ++ fresh)%list)
    /\ Store.represents h1 t r.
Proof.
  intros Hrep Hfuel.
  destruct (store_format_pure t fuel Hfuel h r depth Hrep) as [e1 E1].
  assert (Hrep1 : Store.represents (h ++ e1)%list t r) by now apply represents_ext.
  destruct (store_format_pure t fuel Hfuel _ r depth Hrep1) as [e2 E2].
  exists (_format_comment_tree t depth), (h ++ e1)%list, ((h ++ e1) ++ e2)%list.
  repeat split; try assumption. now exists e1.
Qed.

Lemma format_twice_same_output_witness :
  Store.represents Store.thread_heap Sample.thread 0%nat
  /\ (height Sample.thread < 3)%nat
  /\ exists out h1 h2,
       @Store._format_comment_tree UTC_Datetime 3 0%nat 0 Store.thread_heap
       = Some (out, h1)
       /\ @Store._format_comment_tree UTC_Datetime 3 0%nat 0 h1 = Some (out, h2)
       /\ out = @_format_comment_tree UTC_Datetime Sample.thread 0
       /\ (exists fresh, h1 = (Store.thread_heap ++ fresh)%list)
       /\ Store.represents h1 Sample.thread 0%nat.
Proof.
  assert (Hrep : Store.represents Store.thread_heap Sample.thread 0%nat).
  { exists 1%nat, [2%nat]. repeat split.
    exists 3%nat, []. repeat split. }
  assert (Hfuel : (height Sample.thread < 3)%nat) by (cbn; lia).
  split; [exact Hrep|]. split; [exact Hfuel|].
  exact (format_twice_same_output (DT := UTC_Datetime) Store.thread_heap
           Sample.thread 0%nat 0 3 Hrep Hfuel).
Defined.
